(** * python-gssapi: names and status decoding

    A shallow embedding of [gssapi/raw/names.pyx] (the [Name] wrapper and the
    operations on it) and of [gssapi/raw/misc.pyx] ([display_status] and the
    [GSSError] exception), followed by the properties of the handle life
    cycle and of the status-message decoder.

    The GSSAPI provider (the C library behind [gssapi.h]) is a parameter: a
    state machine whose primitives answer the calls the Cython code makes.
    Python objects of class [Name] live in a store indexed by object
    identity, so that aliasing and in-place mutation are visible. *)

From Stdlib Require Import ZArith Lia List.
From Stdlib Require Import Strings.String Strings.Ascii Strings.Byte.
From Stdlib Require Import Numbers.DecimalString.
From stdpp Require Import base gmap.

Import ListNotations.
Local Open Scope string_scope.
Local Open Scope list_scope.
Local Open Scope Z_scope.

(** ** C types and constants of [gssapi.h] *)

(** [OM_uint32]: a 32-bit unsigned integer, carried as a [Z] that the model
    reduces modulo [2^32] whenever it is read from the provider. *)
Definition OM_uint32 := Z.

Definition u32 (z : Z) : OM_uint32 := z mod 2 ^ 32.

(** Cython converts a Python integer to a C [unsigned int] argument and
    raises [OverflowError] outside of this range. *)
Definition is_unsigned_int (z : Z) : bool := (0 <=? z) && (z <? 2 ^ 32).

(** [gss_name_t] is an opaque pointer. *)
Definition gss_name_t := Z.

Definition NULL : Z := 0.
Definition GSS_C_NO_NAME : gss_name_t := 0.
Definition GSS_S_COMPLETE : OM_uint32 := 0.
Definition GSS_C_GSS_CODE : Z := 1.
Definition GSS_C_MECH_CODE : Z := 2.

Definition bytes := list byte.

(** [gss_OID_desc] is a counted byte string; [gss_OID] points to one, and
    [GSS_C_NO_OID] is the null pointer. *)
Definition gss_OID_desc := bytes.
Definition gss_OID := option gss_OID_desc.
Definition GSS_C_NO_OID : gss_OID := None.

(** The Python class [OID] of [gssapi.raw.oids]. *)
Record OID := mkOID { raw_oid : gss_OID_desc }.

(** The named tuple [DisplayNameResult(name, name_type)]. *)
Record DisplayNameResult := mkDisplayNameResult {
  name : bytes;
  name_type : option OID
}.

(** ** The provider *)

Record display_status_reply := mkDisplayStatusReply {
  ds_maj_stat : OM_uint32;
  ds_min_stat : OM_uint32;
  ds_message_context : OM_uint32;
  ds_status_string : bytes
}.

Record release_name_reply := mkReleaseNameReply {
  rn_maj_stat : OM_uint32;
  rn_min_stat : OM_uint32;
  rn_name : gss_name_t
}.

Record compare_name_reply := mkCompareNameReply {
  cn_maj_stat : OM_uint32;
  cn_min_stat : OM_uint32;
  cn_is_equal : Z
}.

Record display_name_reply := mkDisplayNameReply {
  dn_maj_stat : OM_uint32;
  dn_min_stat : OM_uint32;
  dn_output_buffer : bytes;
  dn_output_name_type : gss_OID
}.

(** The primitives take the values the C call receives and return what the
    call leaves in its out-parameters, together with the next provider
    state. [gss_release_name] receives the address of the handle and so
    returns the value it leaves there; [gss_display_name] is told whether the
    pointer for the name type is non-null. *)
Record Provider := mkProvider {
  PState : Type;
  gss_display_status :
    OM_uint32 -> Z -> gss_OID -> OM_uint32 -> PState ->
    display_status_reply * PState;
  gss_release_buffer : bytes -> PState -> PState;
  gss_release_name : gss_name_t -> PState -> release_name_reply * PState;
  gss_compare_name :
    gss_name_t -> gss_name_t -> PState -> compare_name_reply * PState;
  gss_display_name :
    gss_name_t -> bool -> PState -> display_name_reply * PState
}.

(** Calls into the provider, in the order they are made. *)
Inductive call :=
| Call_display_status (status_value : OM_uint32) (status_type : Z)
    (mech_type : gss_OID) (message_context : OM_uint32)
| Call_release_buffer (buffer : bytes)
| Call_release_name (input_name : gss_name_t)
| Call_compare_name (name1 name2 : gss_name_t)
| Call_display_name (input_name : gss_name_t) (want_type : bool).

Definition is_release_name (c : call) : bool :=
  match c with Call_release_name _ => true | _ => false end.

Definition is_decode_call (c : call) : bool :=
  match c with
  | Call_display_status _ _ _ _ | Call_release_buffer _ => true
  | _ => false
  end.

(** ** The world: Python objects, provider state, call trace *)

(** [objs] maps the identity of a [Name] object to its [raw_name] field. *)
Record World {P : Provider} := mkWorld {
  objs : gmap nat gss_name_t;
  prov : PState P;
  trace : list call
}.
Arguments World : clear implicits.
Arguments mkWorld {P} _ _ _.

(** ** Exceptions and outcomes *)

Record GSSError := mkGSSError {
  maj_code : Z;
  min_code : Z;
  message : string
}.

Inductive exn :=
| Exn_GSSError (e : GSSError)
| Exn_OverflowError.

Inductive outcome (A : Type) :=
| Return (a : A)
| Raise (e : exn).
Arguments Return {A} a.
Arguments Raise {A} e.

(** ** Python formatting *)

(** [str.format] of an integer: its decimal digits, with a minus sign. *)
Definition py_str_int (z : Z) : string :=
  NilZero.string_of_int (Z.to_int z).

(** [s.encode('utf-8')] of an ASCII string. *)
Definition encode_utf8 (s : string) : bytes := list_byte_of_string s.

(** The interpreter renders a [bytes] object inside a list with [repr]; the
    rendering differs between Python 2 and 3, so it is a parameter. *)
Class PyRuntime := { bytes_repr : bytes -> string }.

Fixpoint join (sep : string) (l : list string) : string :=
  match l with
  | [] => EmptyString
  | [s] => s
  | s :: tl => s ++ sep ++ join sep tl
  end.

(** [str] of a list. *)
Definition py_str_list `{PyRuntime} (l : list bytes) : string :=
  "[" ++ join ", " (map bytes_repr l) ++ "]".

(** Python 3's [repr] of a [bytes] object. *)
Definition hex_digit (n : N) : ascii :=
  match String.get (N.to_nat n) "0123456789abcdef" with
  | Some c => c
  | None => "0"%char
  end.

Definition byte_is (c : byte) (a : ascii) : bool :=
  N.eqb (Byte.to_N c) (N_of_ascii a).

Definition py3_repr_byte (quote : ascii) (c : byte) : string :=
  let n := Byte.to_N c in
  let bs := ascii_of_N 92 in
  if byte_is c quote || byte_is c bs
  then String bs (String (ascii_of_byte c) EmptyString)
  else if N.eqb n 9 then String bs "t"
  else if N.eqb n 10 then String bs "n"
  else if N.eqb n 13 then String bs "r"
  else if N.ltb n 32 || N.leb 127 n then
    String bs (String "x" (String (hex_digit (N.div n 16))
                                  (String (hex_digit (N.modulo n 16)) EmptyString)))
  else String (ascii_of_byte c) EmptyString.

Definition py3_bytes_repr (b : bytes) : string :=
  let squote := ascii_of_N 39 in
  let dquote := ascii_of_N 34 in
  let quote :=
    if existsb (fun c => byte_is c squote) b
       && negb (existsb (fun c => byte_is c dquote) b)
    then dquote else squote in
  String "b" (String quote
    (String.concat EmptyString (map (py3_repr_byte quote) b)
     ++ String quote EmptyString)).

(** ** The model *)

Section Model.
Context {P : Provider} `{PyRuntime}.

(** A computation reads and updates the world, and either returns, raises,
    or runs out of fuel ([None]). *)
Definition M (A : Type) : Type := World P -> option (outcome A * World P).

Definition ret {A} (a : A) : M A := fun w => Some (Return a, w).

Definition raise {A} (e : exn) : M A := fun w => Some (Raise e, w).

Definition bind {A B} (m : M A) (k : A -> M B) : M B :=
  fun w =>
    match m w with
    | None => None
    | Some (Return a, w') => k a w'
    | Some (Raise e, w') => Some (Raise e, w')
    end.

(** [try: m  except GSSError: h] *)
Definition try_except_GSSError {A} (m : M A) (h : M A) : M A :=
  fun w =>
    match m w with
    | Some (Raise (Exn_GSSError _), w') => h w'
    | r => r
    end.

(** *** Calls into the provider *)

Definition log (c : call) (p : PState P) (w : World P) : World P :=
  mkWorld (objs w) p (trace w ++ [c]).

Definition call_display_status (status_value : OM_uint32) (status_type : Z)
    (mech_type : gss_OID) (message_context : OM_uint32) (w : World P)
  : display_status_reply * World P :=
  let '(r, p) :=
    gss_display_status P status_value status_type mech_type message_context
      (prov w) in
  (r, log (Call_display_status status_value status_type mech_type
             message_context) p w).

Definition call_release_buffer (buffer : bytes) (w : World P) : World P :=
  log (Call_release_buffer buffer) (gss_release_buffer P buffer (prov w)) w.

(** Reading and writing the field [obj.raw_name]. *)
Definition raw_name (w : World P) (obj : nat) : gss_name_t := objs w !!! obj.

Definition set_raw_name (obj : nat) (v : gss_name_t) (w : World P) : World P :=
  mkWorld (<[obj := v]> (objs w)) (prov w) (trace w).

(** [gss_release_name(&min_stat, &obj.raw_name)]: the provider works on the
    field itself, and what it leaves there is stored back. *)
Definition call_release_name (obj : nat) (w : World P)
  : release_name_reply * World P :=
  let raw := raw_name w obj in
  let '(r, p) := gss_release_name P raw (prov w) in
  (r, mkWorld (<[obj := rn_name r]> (objs w)) p
              (trace w ++ [Call_release_name raw])).

Definition call_compare_name (name1 name2 : gss_name_t) (w : World P)
  : compare_name_reply * World P :=
  let '(r, p) := gss_compare_name P name1 name2 (prov w) in
  (r, log (Call_compare_name name1 name2) p w).

Definition call_display_name (input_name : gss_name_t) (want_type : bool)
    (w : World P) : display_name_reply * World P :=
  let '(r, p) := gss_display_name P input_name want_type (prov w) in
  (r, log (Call_display_name input_name want_type) p w).

(** *** [misc.pyx]: [display_status] and [GSSError] *)

Definition placeholder (code : Z) : bytes :=
  encode_utf8 ("issue decoding code: " ++ py_str_int code).

Definition format_message (maj_stat : Z) (maj_str : list bytes)
    (min_stat : Z) (min_str : list bytes) : string :=
  "Major (" ++ py_str_int maj_stat ++ "): " ++ py_str_list maj_str
  ++ ", Minor (" ++ py_str_int min_stat ++ "): " ++ py_str_list min_str.

(** [display_status] raises [GSSError(maj_stat, min_stat)], whose
    constructor runs [gen_message], which runs [get_all_statuses], which
    calls [display_status]: the five functions are mutually recursive, and
    every call costs one unit of fuel. [while_cont] is the [while cont:] loop
    of [get_all_statuses] over its three variables. The recursion limit of
    the interpreter is not modelled: running out of fuel stands for a
    computation that hands nothing back, whether it runs forever or ends in
    [RecursionError]. Results are therefore stated where the nesting is
    bounded: where the codes of a failure are decoded without another
    failure. *)
Fixpoint display_status (fuel : nat) (error_code : Z) (is_major_code : bool)
    (mech_type : option OID) (message_context : Z) (w : World P)
  : option (outcome (bytes * Z * bool) * World P) :=
  match fuel with
  | O => None
  | S fuel =>
    if negb (is_unsigned_int error_code && is_unsigned_int message_context)
    then raise Exn_OverflowError w
    else
      let status_type :=
        if is_major_code then GSS_C_GSS_CODE else GSS_C_MECH_CODE in
      let c_mech_type :=
        match mech_type with
        | None => GSS_C_NO_OID
        | Some o => Some (raw_oid o)
        end in
      let '(r, w1) :=
        call_display_status error_code status_type c_mech_type
          message_context w in
      let maj_stat := u32 (ds_maj_stat r) in
      let min_stat := u32 (ds_min_stat r) in
      let msg_ctx_out := u32 (ds_message_context r) in
      if maj_stat =? GSS_S_COMPLETE then
        let call_again := negb (msg_ctx_out =? 0) in
        let msg_out := ds_status_string r in
        let w2 := call_release_buffer msg_out w1 in
        ret (msg_out, msg_ctx_out, call_again) w2
      else
        bind (GSSError__init__ fuel maj_stat min_stat)
             (fun e => raise (Exn_GSSError e)) w1
  end

with GSSError__init__ (fuel : nat) (maj_code min_code : Z) (w : World P)
  : option (outcome GSSError * World P) :=
  match fuel with
  | O => None
  | S fuel =>
    bind (gen_message fuel maj_code min_code)
         (fun msg => ret (mkGSSError maj_code min_code msg)) w
  end

with gen_message (fuel : nat) (maj_code min_code : Z) (w : World P)
  : option (outcome string * World P) :=
  match fuel with
  | O => None
  | S fuel =>
    bind (get_all_statuses fuel maj_code true) (fun maj_statuses =>
    bind (get_all_statuses fuel min_code false) (fun min_statuses =>
    ret (format_message maj_code maj_statuses min_code min_statuses))) w
  end

with get_all_statuses (fuel : nat) (code : Z) (is_maj : bool) (w : World P)
  : option (outcome (list bytes) * World P) :=
  match fuel with
  | O => None
  | S fuel =>
    let res := [] in
    bind
      (try_except_GSSError
         (bind (display_status fuel code is_maj None 0)
               (fun '(msg, ctx, cont) => ret (res ++ [msg], ctx, cont)))
         (ret (res ++ [placeholder code], 0, false)))
      (fun '(res, ctx, cont) => while_cont fuel code is_maj res ctx cont) w
  end

with while_cont (fuel : nat) (code : Z) (is_maj : bool) (res : list bytes)
    (ctx : Z) (cont : bool) (w : World P)
  : option (outcome (list bytes) * World P) :=
  match fuel with
  | O => None
  | S fuel =>
    if cont then
      bind
        (try_except_GSSError
           (bind (display_status fuel code is_maj None ctx)
                 (fun '(msg, ctx, cont) => ret (res ++ [msg], ctx, cont)))
           (ret (res ++ [placeholder code], ctx, false)))
        (fun '(res, ctx, cont) => while_cont fuel code is_maj res ctx cont) w
    else ret res w
  end.

(** [raise GSSError(maj_stat, min_stat)]: the exception object is built
    first, then raised. *)
Definition raise_GSSError {A} (fuel : nat) (maj_stat min_stat : Z) : M A :=
  bind (GSSError__init__ fuel maj_stat min_stat)
       (fun e => raise (Exn_GSSError e)).

(** *** [names.pyx]: the class [Name] *)

(** [Name.__cinit__(self, Name cpy=None)] *)
Definition Name__cinit__ (self : nat) (cpy : option nat) (w : World P)
  : World P :=
  match cpy with
  | Some cpy =>
    let w1 := set_raw_name self (raw_name w cpy) w in
    set_raw_name cpy GSS_C_NO_NAME w1
  | None => set_raw_name self GSS_C_NO_NAME w
  end.

(** [Name(cpy)]: a new object is allocated with a zeroed field, then
    [__cinit__] runs on it. *)
Definition Name_new (cpy : option nat) (w : World P) : nat * World P :=
  let self := fresh (dom (objs w)) in
  (self, Name__cinit__ self cpy (set_raw_name self NULL w)).

(** [Name.__dealloc__(self)]: the body the runtime runs when the object is
    destroyed. *)
Definition Name__dealloc__ (fuel : nat) (self : nat) : M unit :=
  fun w =>
    if negb (raw_name w self =? GSS_C_NO_NAME) then
      let '(r, w1) := call_release_name self w in
      let maj_stat := u32 (rn_maj_stat r) in
      let min_stat := u32 (rn_min_stat r) in
      if negb (maj_stat =? GSS_S_COMPLETE)
      then raise_GSSError fuel maj_stat min_stat w1
      else ret tt (set_raw_name self NULL w1)
    else ret tt w.

(** [display_name(Name name not None, name_type=True)] *)
Definition display_name (fuel : nat) (name : nat) (name_type : bool)
  : M DisplayNameResult :=
  fun w =>
    let want_type := name_type in
    let '(r, w1) := call_display_name (raw_name w name) want_type w in
    let maj_stat := u32 (dn_maj_stat r) in
    let min_stat := u32 (dn_min_stat r) in
    if maj_stat =? GSS_S_COMPLETE then
      let text := dn_output_buffer r in
      let w2 := call_release_buffer text w1 in
      let py_name_type :=
        if name_type then
          match dn_output_name_type r with
          | None => None
          | Some d => Some (mkOID d)
          end
        else None in
      ret (mkDisplayNameResult text py_name_type) w2
    else raise_GSSError fuel maj_stat min_stat w1.

(** [compare_name(Name name1=None, Name name2=None)] *)
Definition compare_name (fuel : nat) (name1 name2 : option nat) : M bool :=
  fun w =>
    match name1, name2 with
    | None, None => ret true w
    | None, Some _ | Some _, None => ret false w
    | Some n1, Some n2 =>
      let '(r, w1) :=
        call_compare_name (raw_name w n1) (raw_name w n2) w in
      let maj_stat := u32 (cn_maj_stat r) in
      let min_stat := u32 (cn_min_stat r) in
      if maj_stat =? GSS_S_COMPLETE
      then ret (negb (cn_is_equal r =? 0)) w1
      else raise_GSSError fuel maj_stat min_stat w1
    end.

(** [release_name(Name name not None)] *)
Definition release_name (fuel : nat) (name : nat) : M unit :=
  fun w =>
    let '(r, w1) := call_release_name name w in
    let maj_stat := u32 (rn_maj_stat r) in
    let min_stat := u32 (rn_min_stat r) in
    if negb (maj_stat =? GSS_S_COMPLETE)
    then raise_GSSError fuel maj_stat min_stat w1
    else ret tt (set_raw_name name NULL w1).

End Model.

(** ** Concrete providers *)

#[local] Instance py3_runtime : PyRuntime := {| bytes_repr := py3_bytes_repr |}.

Definition GSS_S_BAD_NAME : OM_uint32 := Z.shiftl 2 16.
Definition GSS_S_BAD_STATUS : OM_uint32 := Z.shiftl 5 16.

(** A small provider: major code 13 has two messages, minor code 7 cannot be
    decoded, every other code has one message. *)
Definition demo_display_status (status_value : OM_uint32) (status_type : Z)
    (mech_type : gss_OID) (message_context : OM_uint32) (p : unit)
  : display_status_reply * unit :=
  if (status_type =? GSS_C_GSS_CODE) && (status_value =? 13) then
    if message_context =? 0
    then (mkDisplayStatusReply 0 0 1 (encode_utf8 "first"), p)
    else (mkDisplayStatusReply 0 0 0 (encode_utf8 "second"), p)
  else if (status_type =? GSS_C_MECH_CODE) && (status_value =? 7) then
    (mkDisplayStatusReply GSS_S_BAD_STATUS 0 message_context [], p)
  else (mkDisplayStatusReply 0 0 0 (encode_utf8 "Unknown error"), p).

(** Releasing the null name is an error for this provider; releasing any
    other name succeeds and clears the handle. *)
Definition strict_release_name (input_name : gss_name_t) (p : unit)
  : release_name_reply * unit :=
  if input_name =? GSS_C_NO_NAME
  then (mkReleaseNameReply GSS_S_BAD_NAME 0 input_name, p)
  else (mkReleaseNameReply 0 0 GSS_C_NO_NAME, p).


Definition demo_compare_name (name1 name2 : gss_name_t) (p : unit)
  : compare_name_reply * unit :=
  (mkCompareNameReply 0 0 (if name1 =? name2 then 1 else 0), p).

(** The name at address 42 has no type. *)
Definition demo_display_name (input_name : gss_name_t) (want_type : bool)
    (p : unit) : display_name_reply * unit :=
  (mkDisplayNameReply 0 0 (encode_utf8 "alice@EXAMPLE.COM")
     (if want_type && negb (input_name =? 42)
      then Some (encode_utf8 "oid") else None), p).

Definition provider_with
    (ds : OM_uint32 -> Z -> gss_OID -> OM_uint32 -> unit ->
          display_status_reply * unit)
    (rn : gss_name_t -> unit -> release_name_reply * unit) : Provider :=
  mkProvider unit ds (fun _ p => p) rn demo_compare_name demo_display_name.

Definition demo_provider : Provider :=
  provider_with demo_display_status strict_release_name.


(** A provider whose [gss_display_status] fails on every call. *)
Definition failing_provider : Provider :=
  provider_with
    (fun _ _ _ ctx p => (mkDisplayStatusReply GSS_S_BAD_STATUS 0 ctx [], p))
    strict_release_name.


(** One live [Name] object, number 0, holding the name at address 42. *)
Definition world0 (P : Provider) (p : PState P) : World P :=
  mkWorld {[ 0%nat := 42 ]} p [].

(** ** Predicates used in the statements *)

(** [w'] is reached from [w] by status decoding alone: no [Name] object
    changed, and the provider was only asked to display statuses and to
    release the buffers of the messages. *)
Definition decodes {P : Provider} (w w' : World P) : Prop :=
  objs w' = objs w /\
  exists t, trace w' = trace w ++ t /\ forallb is_decode_call t = true.

(** Number of [gss_release_name] calls in a trace. *)
Definition count_release (t : list call) : nat :=
  length (List.filter is_release_name t).

(** [needle] occurs in [hay]. *)
Definition contains (needle hay : string) : Prop :=
  exists pre post : string, hay = (pre ++ needle ++ post)%string.

Definition status_type_of (is_maj : bool) : Z :=
  if is_maj then GSS_C_GSS_CODE else GSS_C_MECH_CODE.

(** What [display_status] can hand back: on return the continuation flag is
    the truth value of the new context; [OverflowError] is raised exactly
    when an argument does not fit an [unsigned int]. *)
Definition display_status_post (c x : Z) (o : outcome (bytes * Z * bool))
  : Prop :=
  match o with
  | Return (_, ctx, cont) =>
    cont = negb (ctx =? 0) /\ is_unsigned_int ctx = true /\
    is_unsigned_int c && is_unsigned_int x = true
  | Raise (Exn_GSSError _) => is_unsigned_int c && is_unsigned_int x = true
  | Raise Exn_OverflowError => is_unsigned_int c && is_unsigned_int x = false
  end.

Definition gen_message_post `{PyRuntime} (maj min : Z) (o : outcome string)
  : Prop :=
  match o with
  | Return msg =>
    exists majs mins, majs <> [] /\ mins <> [] /\
      msg = format_message maj majs min mins
  | Raise (Exn_GSSError _) => False
  | Raise Exn_OverflowError =>
    is_unsigned_int maj && is_unsigned_int min = false
  end.

Definition GSSError_post `{PyRuntime} (maj min : Z) (o : outcome GSSError)
  : Prop :=
  match o with
  | Return e =>
    maj_code e = maj /\ min_code e = min /\
    gen_message_post maj min (Return (message e))
  | Raise (Exn_GSSError _) => False
  | Raise Exn_OverflowError =>
    is_unsigned_int maj && is_unsigned_int min = false
  end.

Definition get_all_statuses_post (c : Z) (o : outcome (list bytes)) : Prop :=
  match o with
  | Return l => l <> []
  | Raise (Exn_GSSError _) => False
  | Raise Exn_OverflowError => is_unsigned_int c = false
  end.

Definition while_cont_post (c : Z) (res : list bytes) (ctx : Z) (cont : bool)
    (o : outcome (list bytes)) : Prop :=
  match o with
  | Return l => exists more, l = res ++ more
  | Raise (Exn_GSSError _) => False
  | Raise Exn_OverflowError =>
    cont = true /\ is_unsigned_int c && is_unsigned_int ctx = false
  end.

(** The five statements proved together by induction on the fuel. *)
Definition decode_sound_at (P : Provider) `{PyRuntime} (fuel : nat) : Prop :=
  (forall c m mech x (w : World P) o w',
      display_status fuel c m mech x w = Some (o, w') ->
      decodes w w' /\ display_status_post c x o) /\
  (forall maj min (w : World P) o w',
      GSSError__init__ fuel maj min w = Some (o, w') ->
      decodes w w' /\ GSSError_post maj min o) /\
  (forall maj min (w : World P) o w',
      gen_message fuel maj min w = Some (o, w') ->
      decodes w w' /\ gen_message_post maj min o) /\
  (forall c m (w : World P) o w',
      get_all_statuses fuel c m w = Some (o, w') ->
      decodes w w' /\ get_all_statuses_post c o) /\
  (forall c m res ctx cont (w : World P) o w',
      while_cont fuel c m res ctx cont w = Some (o, w') ->
      decodes w w' /\ while_cont_post c res ctx cont o).

(** One guarded query of the decoder, as both [try] blocks of
    [get_all_statuses] have it: the message is appended, or the placeholder
    when [display_status] raises [GSSError]. *)
Definition decode_step {P : Provider} `{PyRuntime} (fuel : nat) (code : Z)
    (is_maj : bool) (res : list bytes) (ctx : Z)
  : @M P (list bytes * Z * bool) :=
  try_except_GSSError
    (bind (display_status fuel code is_maj None ctx)
          (fun '(msg, ctx, cont) => ret (res ++ [msg], ctx, cont)))
    (ret (res ++ [placeholder code], ctx, false)).

(** [m'] answers whenever [m] does, and with the same answer. *)
Definition answers_as {P : Provider} {A} (m m' : @M P A) : Prop :=
  forall w r, m w = Some r -> m' w = Some r.

(** ** The remaining operations of [names.pyx] *)

(** What [gss_import_name], [gss_canonicalize_name] and [gss_duplicate_name]
    leave in their out-parameters, and what [gss_export_name] does. *)
Record name_reply := mkNameReply {
  nr_maj_stat : OM_uint32;
  nr_min_stat : OM_uint32;
  nr_output_name : gss_name_t
}.

Record buffer_reply := mkBufferReply {
  br_maj_stat : OM_uint32;
  br_min_stat : OM_uint32;
  br_buffer : bytes
}.

(** A provider with the four further primitives. Their calls show in the
    provider state; the trace keeps recording the primitives of [call]. *)
Record NameProvider := mkNameProvider {
  base_provider :> Provider;
  gss_import_name :
    bytes -> gss_OID -> PState base_provider ->
    name_reply * PState base_provider;
  gss_export_name :
    gss_name_t -> PState base_provider -> buffer_reply * PState base_provider;
  gss_canonicalize_name :
    gss_name_t -> gss_OID -> PState base_provider ->
    name_reply * PState base_provider;
  gss_duplicate_name :
    gss_name_t -> PState base_provider -> name_reply * PState base_provider
}.

Section Names_model.
Context {X : NameProvider} `{PyRuntime}.

Definition set_prov (p : PState X) (w : World X) : World X :=
  mkWorld (objs w) p (trace w).

(** The common tail of the three operations that produce a handle:
    [on = Name()], then the name is stored and the object returned, or
    [GSSError] is raised. *)
Definition return_new_name (fuel : nat) (r : name_reply) : @M X nat :=
  fun w =>
    let maj_stat := u32 (nr_maj_stat r) in
    let min_stat := u32 (nr_min_stat r) in
    let '(on, w1) := Name_new None w in
    if maj_stat =? GSS_S_COMPLETE
    then ret on (set_raw_name on (nr_output_name r) w1)
    else raise_GSSError fuel maj_stat min_stat w1.

(** [import_name(name not None, OID name_type=None)] *)
Definition import_name (fuel : nat) (name : bytes) (name_type : option OID)
  : @M X nat :=
  fun w =>
    let nt :=
      match name_type with
      | None => GSS_C_NO_OID
      | Some o => Some (raw_oid o)
      end in
    let name_buffer := name in
    let '(r, p) := gss_import_name X name_buffer nt (prov w) in
    return_new_name fuel r (set_prov p w).

(** [export_name(Name name not None)] *)
Definition export_name (fuel : nat) (name : nat) : @M X bytes :=
  fun w =>
    let '(r, p) := gss_export_name X (raw_name w name) (prov w) in
    let w1 := set_prov p w in
    let maj_stat := u32 (br_maj_stat r) in
    let min_stat := u32 (br_min_stat r) in
    if maj_stat =? GSS_S_COMPLETE then
      let res := br_buffer r in
      ret res (call_release_buffer res w1)
    else raise_GSSError fuel maj_stat min_stat w1.

(** [canonicalize_name(Name name not None, OID mech not None)] *)
Definition canonicalize_name (fuel : nat) (name : nat) (mech : OID)
  : @M X nat :=
  fun w =>
    let '(r, p) :=
      gss_canonicalize_name X (raw_name w name) (Some (raw_oid mech))
        (prov w) in
    return_new_name fuel r (set_prov p w).

(** [duplicate_name(Name name not None)] *)
Definition duplicate_name (fuel : nat) (name : nat) : @M X nat :=
  fun w =>
    let '(r, p) := gss_duplicate_name X (raw_name w name) (prov w) in
    return_new_name fuel r (set_prov p w).

End Names_model.

(** A provider for the examples: importing the empty string is an error,
    any other string gives the name at 77; only the name at 43 is a
    mechanism name and can be exported; canonicalizing gives the name at
    43; duplicating moves the address by 100. *)
Definition GSS_S_NAME_NOT_MN : OM_uint32 := Z.shiftl 18 16.

Definition demo_import_name (name_buffer : bytes) (name_type : gss_OID)
    (p : unit) : name_reply * unit :=
  match name_buffer with
  | [] => (mkNameReply GSS_S_BAD_NAME 0 0, p)
  | _ :: _ => (mkNameReply 0 0 77, p)
  end.

Definition demo_export_name (input_name : gss_name_t) (p : unit)
  : buffer_reply * unit :=
  if input_name =? 43
  then (mkBufferReply 0 0 (encode_utf8 "exported"), p)
  else (mkBufferReply GSS_S_NAME_NOT_MN 0 [], p).

Definition demo_canonicalize_name (input_name : gss_name_t)
    (mech_type : gss_OID) (p : unit) : name_reply * unit :=
  (mkNameReply 0 0 43, p).

Definition demo_duplicate_name (input_name : gss_name_t) (p : unit)
  : name_reply * unit :=
  if input_name =? GSS_C_NO_NAME
  then (mkNameReply GSS_S_BAD_NAME 0 0, p)
  else (mkNameReply 0 0 (input_name + 100), p).

Definition demo_name_provider : NameProvider :=
  mkNameProvider demo_provider demo_import_name demo_export_name
    demo_canonicalize_name demo_duplicate_name.

(** ** Further predicates *)

(** No resource has two owners: two objects that hold the same name, other
    than the sentinel, are the same object. *)
Definition unique_owners (objs : gmap nat gss_name_t) : Prop :=
  forall a b r,
    objs !! a = Some r -> objs !! b = Some r -> r <> GSS_C_NO_NAME -> a = b.

(** No object holds the name [r]. *)
Definition unowned (objs : gmap nat gss_name_t) (r : gss_name_t) : Prop :=
  forall a, objs !! a <> Some r.

(** The replies of a provider to the chain of queries for one code: each
    query is answered, the buffer of the message is released, and the
    context of the reply goes into the next query, until a reply has
    context 0 ([Chain_done]), a query fails ([Chain_failed]), or [n]
    queries were made ([Chain_pending]). *)
Inductive chain_result (P : Provider) :=
| Chain_done (msgs : list bytes) (p : PState P)
| Chain_failed (msgs : list bytes) (maj_stat min_stat : OM_uint32)
    (p : PState P)
| Chain_pending (msgs : list bytes) (ctx : OM_uint32) (p : PState P).
Arguments Chain_done {P} _ _.
Arguments Chain_failed {P} _ _ _ _.
Arguments Chain_pending {P} _ _ _.

Fixpoint provider_chain {P : Provider} (n : nat) (c t x : Z) (p : PState P)
    (msgs : list bytes) : chain_result P :=
  match n with
  | O => Chain_pending msgs x p
  | S n =>
    let '(r, p1) := gss_display_status P c t GSS_C_NO_OID x p in
    if u32 (ds_maj_stat r) =? GSS_S_COMPLETE then
      let p2 := gss_release_buffer P (ds_status_string r) p1 in
      let msgs := msgs ++ [ds_status_string r] in
      if u32 (ds_message_context r) =? 0 then Chain_done msgs p2
      else provider_chain n c t (u32 (ds_message_context r)) p2 msgs
    else Chain_failed msgs (u32 (ds_maj_stat r)) (u32 (ds_min_stat r)) p1
  end.

(** The two chains that build the message of [GSSError(maj, min)], when
    neither has a failing query: the messages of the major code, those of
    the minor code, and the state the provider is left in. *)
Definition report_chain {P : Provider} (n : nat) (maj min : Z) (p : PState P)
  : option (list bytes * list bytes * PState P) :=
  match provider_chain n maj GSS_C_GSS_CODE 0 p [] with
  | Chain_done majs p1 =>
    match provider_chain n min GSS_C_MECH_CODE 0 p1 [] with
    | Chain_done mins p2 => Some (majs, mins, p2)
    | _ => None
    end
  | _ => None
  end.



(** * Properties *)

(** ** Basic facts *)

Lemma u32_unsigned z : is_unsigned_int (u32 z) = true.
Proof.
  unfold is_unsigned_int, u32.
  pose proof (Z.mod_pos_bound z (2 ^ 32) ltac:(lia)) as Hb.
  apply andb_true_iff. split; [apply Z.leb_le | apply Z.ltb_lt]; lia.
Qed.

Section Monad_facts.
Context {P : Provider}.

Lemma bind_Some {A B} (m : @M P A) (k : A -> M B) w o w' :
  bind m k w = Some (o, w') ->
  exists o1 w1, m w = Some (o1, w1) /\
    match o1 with
    | Return a => k a w1 = Some (o, w')
    | Raise e => o = Raise e /\ w' = w1
    end.
Proof.
  unfold bind. destruct (m w) as [[[a|e] w1]|]; intros Hk; try discriminate.
  - exists (Return a), w1. auto.
  - exists (Raise e), w1. split; [reflexivity|]. now inversion Hk.
Qed.

Lemma try_except_Some {A} (m h : @M P A) w o w' :
  try_except_GSSError m h w = Some (o, w') ->
  exists o1 w1, m w = Some (o1, w1) /\
    match o1 with
    | Raise (Exn_GSSError _) => h w1 = Some (o, w')
    | _ => o = o1 /\ w' = w1
    end.
Proof.
  unfold try_except_GSSError.
  destruct (m w) as [[[a|[e|]] w1]|]; intros Hk; try discriminate.
  - exists (Return a), w1. split; [reflexivity|]. now inversion Hk.
  - exists (Raise (Exn_GSSError e)), w1. auto.
  - exists (Raise Exn_OverflowError), w1. split; [reflexivity|]. now inversion Hk.
Qed.

Lemma decodes_refl (w : World P) : decodes w w.
Proof.
  split; [reflexivity|]. exists []. split; [now rewrite app_nil_r | reflexivity].
Qed.

Lemma decodes_trans (w1 w2 w3 : World P) :
  decodes w1 w2 -> decodes w2 w3 -> decodes w1 w3.
Proof.
  intros [Ho1 (t1 & Ht1 & Hd1)] [Ho2 (t2 & Ht2 & Hd2)]. split.
  - congruence.
  - exists (t1 ++ t2). split.
    + rewrite Ht2, Ht1. now rewrite app_assoc.
    + rewrite forallb_app, Hd1, Hd2. reflexivity.
Qed.

Lemma decodes_log c (p : PState P) (w : World P) :
  is_decode_call c = true -> decodes w (log c p w).
Proof.
  intros Hc. split; [reflexivity|]. exists [c]. split; [reflexivity|].
  simpl. now rewrite Hc.
Qed.

Lemma decodes_release_buffer b (w : World P) :
  decodes w (call_release_buffer b w).
Proof. apply decodes_log. reflexivity. Qed.

Lemma call_display_status_eq c t mech x (w : World P) :
  call_display_status c t mech x w =
  (fst (gss_display_status P c t mech x (prov w)),
   log (Call_display_status c t mech x)
       (snd (gss_display_status P c t mech x (prov w))) w).
Proof.
  unfold call_display_status.
  now destruct (gss_display_status P c t mech x (prov w)).
Qed.

End Monad_facts.

(** ** Soundness of the decoder, for every provider and every fuel *)

Section Decoder_sound.
Context {P : Provider} `{PyRuntime}.

Lemma display_status_S fuel c m mech x (w : World P) :
  display_status (S fuel) c m mech x w =
  if negb (is_unsigned_int c && is_unsigned_int x)
  then raise Exn_OverflowError w
  else
    let c_mech_type :=
      match mech with None => GSS_C_NO_OID | Some o => Some (raw_oid o) end in
    let rw := call_display_status c (status_type_of m) c_mech_type x w in
    if u32 (ds_maj_stat (fst rw)) =? GSS_S_COMPLETE then
      ret (ds_status_string (fst rw), u32 (ds_message_context (fst rw)),
           negb (u32 (ds_message_context (fst rw)) =? 0))
          (call_release_buffer (ds_status_string (fst rw)) (snd rw))
    else
      raise_GSSError fuel (u32 (ds_maj_stat (fst rw)))
        (u32 (ds_min_stat (fst rw))) (snd rw).
Proof.
  simpl. destruct (negb _); [reflexivity|].
  fold (status_type_of m).
  destruct (call_display_status _ _ _ _ _) as [r w1]. reflexivity.
Qed.

Lemma GSSError__init___S fuel maj min (w : World P) :
  GSSError__init__ (S fuel) maj min w =
  bind (gen_message fuel maj min)
       (fun msg => ret (mkGSSError maj min msg)) w.
Proof. reflexivity. Qed.

Lemma gen_message_S fuel maj min (w : World P) :
  gen_message (S fuel) maj min w =
  bind (get_all_statuses fuel maj true) (fun maj_statuses =>
  bind (get_all_statuses fuel min false) (fun min_statuses =>
  ret (format_message maj maj_statuses min min_statuses))) w.
Proof. reflexivity. Qed.

Lemma get_all_statuses_S fuel c m (w : World P) :
  get_all_statuses (S fuel) c m w =
  bind (decode_step fuel c m [] 0)
       (fun '(res, ctx, cont) => while_cont fuel c m res ctx cont) w.
Proof. reflexivity. Qed.

Lemma while_cont_S fuel c m res ctx cont (w : World P) :
  while_cont (S fuel) c m res ctx cont w =
  if cont then
    bind (decode_step fuel c m res ctx)
         (fun '(res, ctx, cont) => while_cont fuel c m res ctx cont) w
  else ret res w.
Proof. reflexivity. Qed.

(** One guarded step of the decoder: a query whose failure is replaced by
    the placeholder. *)
Lemma decode_step_sound fuel c m res ctx (w : World P) o w' :
  decode_sound_at P fuel ->
  decode_step fuel c m res ctx w = Some (o, w') ->
  decodes w w' /\
  match o with
  | Return (res', ctx', cont') =>
    (exists msg, res' = res ++ [msg]) /\
    is_unsigned_int c && is_unsigned_int ctx = true /\
    (cont' = true -> is_unsigned_int ctx' = true)
  | Raise (Exn_GSSError _) => False
  | Raise Exn_OverflowError =>
    is_unsigned_int c && is_unsigned_int ctx = false
  end.
Proof.
  intros (IHds & _) Hrun. unfold decode_step in Hrun.
  apply try_except_Some in Hrun as (o1 & w1 & Hm & Hrest).
  apply bind_Some in Hm as (o2 & w2 & Hds & Hk).
  apply IHds in Hds as [Hdec Hpost].
  destruct o2 as [[[msg ctx'] cont']|e].
  - inversion Hk; subst. destruct Hrest as [-> ->].
    split; [assumption|]. destruct Hpost as (Hc & Hu & Hin).
    split; [now exists msg|]. split; [assumption|]. now intros _.
  - destruct Hk as [-> ->]. destruct e as [e|].
    + inversion Hrest; subst. split; [assumption|].
      split; [now exists (placeholder c)|]. split; [assumption|].
      intros Hf. discriminate.
    + destruct Hrest as [-> ->]. split; assumption.
Qed.

Lemma decode_sound fuel : decode_sound_at P fuel.
Proof.
  induction fuel as [|fuel IH].
  - repeat split; intros; discriminate.
  - pose proof IH as (IHds & IHinit & IHgen & IHgas & IHwh).
    unfold decode_sound_at. repeat apply conj.
    + (* display_status *)
      intros c m mech x w o w'. rewrite display_status_S.
      destruct (is_unsigned_int c && is_unsigned_int x) eqn:Hrange;
        simpl negb; cbv beta iota zeta.
      * rewrite call_display_status_eq. cbn [fst snd].
        set (rp := gss_display_status P _ _ _ _ _).
        destruct (u32 (ds_maj_stat rp.1) =? GSS_S_COMPLETE) eqn:Hmaj.
        -- intros Hr. inversion Hr; subst. split.
           ++ eapply decodes_trans; [|apply decodes_release_buffer].
              now apply decodes_log.
           ++ simpl. rewrite u32_unsigned. auto.
        -- intros Hr. apply bind_Some in Hr as (o1 & w1 & Hinit & Hk).
           apply IHinit in Hinit as [Hdec Hpost].
           assert (Hdec' : decodes w w1).
           { eapply decodes_trans; [|exact Hdec]. now apply decodes_log. }
           destruct o1 as [e|e].
           ++ inversion Hk; subst. split; [assumption|]. exact Hrange.
           ++ destruct Hk as [-> ->]. destruct e as [e|]; [contradiction|].
              simpl in Hpost. rewrite !u32_unsigned in Hpost. discriminate.
      * intros Hr. inversion Hr; subst. split; [apply decodes_refl|exact Hrange].
    + (* GSSError.__init__ *)
      intros maj min w o w'. rewrite GSSError__init___S. intros Hr.
      apply bind_Some in Hr as (o1 & w1 & Hgen & Hk).
      apply IHgen in Hgen as [Hdec Hpost].
      destruct o1 as [msg|e].
      * inversion Hk; subst. split; [assumption|]. simpl. auto.
      * destruct Hk as [-> ->]. split; [assumption|]. exact Hpost.
    + (* gen_message *)
      intros maj min w o w'. rewrite gen_message_S. intros Hr.
      apply bind_Some in Hr as (o1 & w1 & Hmaj & Hk).
      apply IHgas in Hmaj as [Hdec1 Hpost1].
      destruct o1 as [majs|e].
      * apply bind_Some in Hk as (o2 & w2 & Hmin & Hk).
        apply IHgas in Hmin as [Hdec2 Hpost2].
        destruct o2 as [mins|e].
        -- inversion Hk; subst. split; [eapply decodes_trans; eassumption|].
           exists majs, mins. auto.
        -- destruct Hk as [-> ->]. split; [eapply decodes_trans; eassumption|].
           destruct e as [e|]; [contradiction|]. simpl in *.
           rewrite Hpost2. apply andb_false_r.
      * destruct Hk as [-> ->]. split; [assumption|].
        destruct e as [e|]; [contradiction|]. simpl in *. now rewrite Hpost1.
    + (* get_all_statuses *)
      intros c m w o w'. rewrite get_all_statuses_S. intros Hr.
      apply bind_Some in Hr as (o1 & w1 & Hstep & Hk).
      apply (decode_step_sound _ _ _ _ _ _ _ _ IH) in Hstep as [Hdec1 Hpost1].
      destruct o1 as [[[res ctx] cont]|e].
      * apply IHwh in Hk as [Hdec2 Hpost2].
        split; [eapply decodes_trans; eassumption|].
        destruct Hpost1 as ([msg ->] & Hin & Hctx).
        destruct o as [l|[e|]]; simpl in *.
        -- destruct Hpost2 as [more ->]. discriminate.
        -- assumption.
        -- destruct Hpost2 as [Hcont Hbad]. specialize (Hctx Hcont).
           apply andb_true_iff in Hin as [Hc _].
           rewrite Hc, Hctx in Hbad. discriminate.
      * destruct Hk as [-> ->]. split; [assumption|].
        destruct e as [e|]; [contradiction|]. simpl in *.
        now rewrite andb_true_r in Hpost1.
    + (* while_cont *)
      intros c m res ctx cont w o w'. rewrite while_cont_S.
      destruct cont.
      * intros Hr. apply bind_Some in Hr as (o1 & w1 & Hstep & Hk).
        apply (decode_step_sound _ _ _ _ _ _ _ _ IH) in Hstep as [Hdec1 Hpost1].
        destruct o1 as [[[res' ctx'] cont']|e].
        -- apply IHwh in Hk as [Hdec2 Hpost2].
           split; [eapply decodes_trans; eassumption|].
           destruct Hpost1 as ([msg ->] & Hin & Hctx).
           destruct o as [l|[e|]]; simpl in *.
           ++ destruct Hpost2 as [more ->]. exists ([msg] ++ more).
              now rewrite app_assoc.
           ++ assumption.
           ++ destruct Hpost2 as [Hcont Hbad]. specialize (Hctx Hcont).
              apply andb_true_iff in Hin as [Hc _].
              rewrite Hc, Hctx in Hbad. discriminate.
        -- destruct Hk as [-> ->]. split; [assumption|].
           destruct e as [e|]; [contradiction|]. simpl in *. auto.
      * intros Hr. inversion Hr; subst. split; [apply decodes_refl|].
        exists []. now rewrite app_nil_r.
Qed.
End Decoder_sound.

(** ** More fuel never changes an answer *)

Section Fuel.
Context {P : Provider} `{PyRuntime}.

Lemma answers_as_refl {A} (m : @M P A) : answers_as m m.
Proof. intros w r Hr. exact Hr. Qed.

Lemma answers_as_bind {A B} (m m' : @M P A) (k k' : A -> M B) :
  answers_as m m' -> (forall a, answers_as (k a) (k' a)) ->
  answers_as (bind m k) (bind m' k').
Proof.
  intros Hm Hk w r. unfold bind.
  destruct (m w) as [[[a|e] w1]|] eqn:Hmw; [| |discriminate].
  - rewrite (Hm _ _ Hmw). apply Hk.
  - now rewrite (Hm _ _ Hmw).
Qed.

Lemma answers_as_try {A} (m m' h : @M P A) :
  answers_as m m' ->
  answers_as (try_except_GSSError m h) (try_except_GSSError m' h).
Proof.
  intros Hm w r. unfold try_except_GSSError.
  destruct (m w) as [[o w1]|] eqn:Hmw; [|discriminate].
  now rewrite (Hm _ _ Hmw).
Qed.

Lemma fuel_step fuel :
  (forall c m mech x,
      answers_as (display_status (P := P) fuel c m mech x)
                 (display_status (S fuel) c m mech x)) /\
  (forall maj min,
      answers_as (GSSError__init__ (P := P) fuel maj min)
                 (GSSError__init__ (S fuel) maj min)) /\
  (forall maj min,
      answers_as (gen_message (P := P) fuel maj min)
                 (gen_message (S fuel) maj min)) /\
  (forall c m,
      answers_as (get_all_statuses (P := P) fuel c m)
                 (get_all_statuses (S fuel) c m)) /\
  (forall c m res ctx cont,
      answers_as (while_cont (P := P) fuel c m res ctx cont)
                 (while_cont (S fuel) c m res ctx cont)).
Proof.
  induction fuel as [|fuel (IHds & IHinit & IHgen & IHgas & IHwh)].
  - repeat split; intros; intros w r Hr; discriminate.
  - assert (Hstep : forall c m res ctx,
      answers_as (decode_step (P := P) fuel c m res ctx)
                 (decode_step (S fuel) c m res ctx)).
    { intros c m res ctx. unfold decode_step.
      apply answers_as_try, answers_as_bind; [apply IHds|].
      intros [[msg ctx'] cont']. apply answers_as_refl. }
    repeat apply conj.
    + intros c m mech x w r. rewrite !display_status_S.
      destruct (negb _); [auto|]. cbv zeta.
      destruct (u32 _ =? GSS_S_COMPLETE); [auto|].
      unfold raise_GSSError. apply answers_as_bind; [apply IHinit|].
      intros e. apply answers_as_refl.
    + intros maj min w r. rewrite !GSSError__init___S.
      apply answers_as_bind; [apply IHgen|]. intros msg. apply answers_as_refl.
    + intros maj min w r. rewrite !gen_message_S.
      apply answers_as_bind; [apply IHgas|]. intros majs.
      apply answers_as_bind; [apply IHgas|]. intros mins. apply answers_as_refl.
    + intros c m w r. rewrite !get_all_statuses_S.
      apply answers_as_bind; [apply Hstep|].
      intros [[res ctx] cont]. apply IHwh.
    + intros c m res ctx cont w r. rewrite !while_cont_S.
      destruct cont; [|auto].
      apply answers_as_bind; [apply Hstep|].
      intros [[res' ctx'] cont']. apply IHwh.
Qed.

Lemma get_all_statuses_fuel_mono fuel fuel' c m (w : World P) r :
  (fuel <= fuel')%nat ->
  get_all_statuses fuel c m w = Some r ->
  get_all_statuses fuel' c m w = Some r.
Proof.
  induction 1 as [|fuel' _ IH]; [auto|]. intros Hr.
  now apply (proj1 (proj2 (proj2 (proj2 (fuel_step fuel'))))), IH.
Qed.

Lemma GSSError__init___fuel_mono fuel fuel' maj min (w : World P) r :
  (fuel <= fuel')%nat ->
  GSSError__init__ fuel maj min w = Some r ->
  GSSError__init__ fuel' maj min w = Some r.
Proof.
  induction 1 as [|fuel' _ IH]; [auto|]. intros Hr.
  now apply (proj1 (proj2 (fuel_step fuel'))), IH.
Qed.

End Fuel.

(** ** Raising [GSSError] *)

Section Raising.
Context {P : Provider} `{PyRuntime}.

(** With codes that fit an [unsigned int] the constructor raises nothing:
    whatever it hands back is the exception object, holding both codes and
    the formatted message. *)
Lemma GSSError__init___sound fuel maj min (w : World P) o w' :
  is_unsigned_int maj = true -> is_unsigned_int min = true ->
  GSSError__init__ fuel maj min w = Some (o, w') ->
  decodes w w' /\
  exists e, o = Return e /\ maj_code e = maj /\ min_code e = min /\
    exists majs mins, majs <> [] /\ mins <> [] /\
      message e = format_message maj majs min mins.
Proof.
  intros Hmaj Hmin Hrun.
  destruct (decode_sound (P := P) fuel) as (_ & Hinit & _).
  apply Hinit in Hrun as [Hdec Hpost]. split; [assumption|].
  destruct o as [e|[e|]]; simpl in Hpost.
  - exists e. destruct Hpost as (? & ? & ?). auto.
  - contradiction.
  - rewrite Hmaj, Hmin in Hpost. discriminate.
Qed.

Lemma raise_GSSError_sound {A} fuel maj min (w : World P) (o : outcome A) w' :
  is_unsigned_int maj = true -> is_unsigned_int min = true ->
  raise_GSSError fuel maj min w = Some (o, w') ->
  decodes w w' /\
  exists e, o = Raise (Exn_GSSError e) /\ maj_code e = maj /\ min_code e = min.
Proof.
  intros Hmaj Hmin Hrun. unfold raise_GSSError in Hrun.
  apply bind_Some in Hrun as (o1 & w1 & Hinit & Hk).
  apply GSSError__init___sound in Hinit as [Hdec (e & -> & Hm & Hn & _)];
    [|assumption..].
  inversion Hk; subst. split; [assumption|]. now exists e.
Qed.

End Raising.

(** ** [display_status]: the continuation flag *)

(** C10. Every successful return of [display_status] has its continuation
    flag equal to whether the returned message context is nonzero: it
    returns neither a true flag with context 0 nor a false flag with a
    nonzero context. *)
Theorem display_status_flag_is_context_nonzero
    {P : Provider} `{PyRuntime} fuel c m mech x (w : World P)
    msg ctx cont w' :
  display_status fuel c m mech x w = Some (Return (msg, ctx, cont), w') ->
  cont = negb (ctx =? 0) /\
  ~ (cont = true /\ ctx = 0) /\
  ~ (cont = false /\ ctx <> 0).
Proof.
  intros Hrun.
  destruct (decode_sound (P := P) fuel) as (Hds & _).
  apply Hds in Hrun as [_ (Hflag & _)]. subst cont.
  split; [reflexivity|]. split.
  - intros [Ht Hz]. subst ctx. discriminate.
  - intros [Hf Hnz]. apply negb_false_iff, Z.eqb_eq in Hf. contradiction.
Qed.

Lemma display_status_flag_witness :
  true = negb (1 =? 0) /\ ~ (true = true /\ 1 = 0) /\ ~ (true = false /\ 1 <> 0).
Proof.
  eapply (display_status_flag_is_context_nonzero (P := demo_provider)
            1 13 true None 0 (world0 demo_provider tt)).
  reflexivity.
Defined.

(** ** [compare_name] *)

(** C8. [compare_name] returns true when both arguments are [None] and
    false when exactly one is, in both cases without consulting the provider
    (the world is unchanged) and without any possible failure; when both are
    present it makes one call to the provider's comparison and, when that
    call succeeds, returns the truth value of its answer. *)
Theorem compare_name_absent_or_delegates
    {P : Provider} `{PyRuntime} fuel (w : World P) :
  compare_name fuel None None w = Some (Return true, w) /\
  (forall h,
      compare_name fuel (Some h) None w = Some (Return false, w) /\
      compare_name fuel None (Some h) w = Some (Return false, w)) /\
  (forall h1 h2,
      let rp := gss_compare_name P (raw_name w h1) (raw_name w h2) (prov w) in
      u32 (cn_maj_stat (fst rp)) = GSS_S_COMPLETE ->
      compare_name fuel (Some h1) (Some h2) w =
      Some (Return (negb (cn_is_equal (fst rp) =? 0)),
            mkWorld (objs w) (snd rp)
              (trace w ++ [Call_compare_name (raw_name w h1) (raw_name w h2)]))).
Proof.
  split; [reflexivity|]. split; [intros h; split; reflexivity|].
  intros h1 h2 rp Hmaj. unfold compare_name, call_compare_name.
  fold rp. destruct rp as [r p]. simpl in *.
  apply Z.eqb_eq in Hmaj. rewrite Hmaj. reflexivity.
Qed.

Lemma compare_name_witness :
  compare_name 0 (Some 0%nat) (Some 0%nat) (world0 demo_provider tt) =
  Some (Return true,
        mkWorld (P := demo_provider) {[ 0%nat := 42 ]} tt
          [Call_compare_name 42 42]).
Proof.
  exact (proj2 (proj2 (compare_name_absent_or_delegates (P := demo_provider)
                         0 (world0 demo_provider tt)))
           0%nat 0%nat eq_refl).
Defined.

(** ** [display_name] *)

(** C9. With [name_type] false, [display_name] asks the provider once, with
    a null pointer for the type, and every result it returns has no type;
    when the provider succeeds the result is returned. With [name_type] true
    and a provider that succeeds but leaves [GSS_C_NO_OID] as the type,
    [display_name] returns a result without a type instead of failing. *)
Theorem display_name_type_absent
    {P : Provider} `{PyRuntime} fuel (w : World P) h :
  let raw := raw_name w h in
  (forall o w',
      display_name fuel h false w = Some (o, w') ->
      (exists t, trace w' = trace w ++ Call_display_name raw false :: t /\
                 forallb is_decode_call t = true) /\
      (forall r, o = Return r -> name_type r = None)) /\
  (let rp := gss_display_name P raw false (prov w) in
   u32 (dn_maj_stat (fst rp)) = GSS_S_COMPLETE ->
   exists w',
     display_name fuel h false w =
     Some (Return (mkDisplayNameResult (dn_output_buffer (fst rp)) None), w')) /\
  (let rp := gss_display_name P raw true (prov w) in
   u32 (dn_maj_stat (fst rp)) = GSS_S_COMPLETE ->
   dn_output_name_type (fst rp) = GSS_C_NO_OID ->
   exists w',
     display_name fuel h true w =
     Some (Return (mkDisplayNameResult (dn_output_buffer (fst rp)) None), w')).
Proof.
  intros raw. split; [|split].
  - intros o w'. unfold display_name, call_display_name. fold raw.
    destruct (gss_display_name P raw false (prov w)) as [r p].
    destruct (u32 (dn_maj_stat r) =? GSS_S_COMPLETE).
    + intros Hr. inversion Hr; subst. split.
      * exists [Call_release_buffer (dn_output_buffer r)]. split; [|reflexivity].
        simpl. now rewrite <- app_assoc.
      * intros r' Hr'. now inversion Hr'.
    + intros Hr.
      apply raise_GSSError_sound in Hr as [[_ (t & Ht & Hd)] (e & -> & _)];
        try apply u32_unsigned.
      split; [|discriminate].
      exists t. split; [|assumption]. simpl in Ht. now rewrite <- app_assoc in Ht.
  - intros rp Hmaj. unfold display_name, call_display_name. fold raw. fold rp.
    destruct rp as [r p]. simpl in *. apply Z.eqb_eq in Hmaj. rewrite Hmaj.
    eexists. reflexivity.
  - intros rp Hmaj Hty. unfold display_name, call_display_name. fold raw. fold rp.
    destruct rp as [r p]. simpl in *. apply Z.eqb_eq in Hmaj. rewrite Hmaj, Hty.
    eexists. reflexivity.
Qed.

Lemma display_name_type_absent_witness :
  exists w',
    display_name 0 0%nat true (world0 demo_provider tt) =
    Some (Return (mkDisplayNameResult (encode_utf8 "alice@EXAMPLE.COM") None),
          w').
Proof.
  exact (proj2 (proj2 (display_name_type_absent (P := demo_provider)
                         0 (world0 demo_provider tt) 0%nat))
           eq_refl eq_refl).
Defined.

(** ** Ownership transfer *)

Section Transfer.
Context {P : Provider} `{PyRuntime}.

Lemma raw_name_set_eq h v (w : World P) :
  raw_name (set_raw_name h v w) h = v.
Proof. unfold raw_name, set_raw_name. simpl. apply lookup_total_insert_eq. Qed.

Lemma raw_name_set_ne h k v (w : World P) :
  h <> k -> raw_name (set_raw_name h v w) k = raw_name w k.
Proof.
  intros Hne. unfold raw_name, set_raw_name. simpl.
  now apply lookup_total_insert_ne.
Qed.

Lemma raw_name_lookup h r (w : World P) :
  objs w !! h = Some r -> raw_name w h = r.
Proof. intros Hl. unfold raw_name. now rewrite lookup_total_alt, Hl. Qed.

Lemma Name_new_fresh cpy (w : World P) :
  objs w !! fst (Name_new cpy w) = None.
Proof.
  unfold Name_new. simpl. apply not_elem_of_dom. apply is_fresh.
Qed.

(** Destroying a handle in the sentinel state does nothing. *)
Lemma Name__dealloc___sentinel fuel h (w : World P) :
  raw_name w h = GSS_C_NO_NAME ->
  Name__dealloc__ fuel h w = Some (Return tt, w).
Proof.
  intros Hs. unfold Name__dealloc__. rewrite Hs. reflexivity.
Qed.

End Transfer.

(** C3. Constructing [Name(other)] from a live handle [other] leaves
    [other] in the sentinel state and gives the new object exactly the
    resource [other] held, without any call to the provider and without
    touching any other object; destroying [other] afterwards calls no
    provider release: it changes nothing at all. *)
Theorem Name_transfer_moves_resource
    {P : Provider} `{PyRuntime} (w : World P) other r :
  objs w !! other = Some r ->
  r <> GSS_C_NO_NAME ->
  let new := fst (Name_new (Some other) w) in
  let w1 := snd (Name_new (Some other) w) in
  new <> other /\
  raw_name w1 other = GSS_C_NO_NAME /\
  raw_name w1 new = r /\
  (forall k, k <> new -> k <> other -> objs w1 !! k = objs w !! k) /\
  prov w1 = prov w /\
  trace w1 = trace w /\
  (forall fuel, Name__dealloc__ fuel other w1 = Some (Return tt, w1)).
Proof.
  intros Hother Hr new w1.
  assert (Hne : new <> other).
  { intros Heq. pose proof (Name_new_fresh (Some other) w) as Hf.
    fold new in Hf. congruence. }
  assert (Hso : raw_name w1 other = GSS_C_NO_NAME).
  { subst w1. unfold Name_new, Name__cinit__. simpl. apply raw_name_set_eq. }
  split; [assumption|]. split; [assumption|]. split; [|split; [|split; [|split]]].
  - subst w1. unfold Name_new, Name__cinit__. simpl.
    change (fresh (dom (objs w))) with new.
    rewrite raw_name_set_ne by congruence. rewrite raw_name_set_eq.
    rewrite raw_name_set_ne by assumption. now apply raw_name_lookup.
  - intros k Hk1 Hk2. subst w1.
    unfold Name_new, Name__cinit__, set_raw_name. simpl.
    change (fresh (dom (objs w))) with new.
    now rewrite !lookup_insert_ne by congruence.
  - reflexivity.
  - reflexivity.
  - intros fuel. now apply Name__dealloc___sentinel.
Qed.

Lemma Name_transfer_witness :
  let w := world0 demo_provider tt in
  let new := fst (Name_new (Some 0%nat) w) in
  let w1 := snd (Name_new (Some 0%nat) w) in
  new <> 0%nat /\
  raw_name w1 0%nat = GSS_C_NO_NAME /\
  raw_name w1 new = 42 /\
  (forall k, k <> new -> k <> 0%nat -> objs w1 !! k = objs w !! k) /\
  prov w1 = prov w /\
  trace w1 = trace w /\
  (forall fuel, Name__dealloc__ fuel 0%nat w1 = Some (Return tt, w1)).
Proof.
  apply (Name_transfer_moves_resource (P := demo_provider)
           (world0 demo_provider tt) 0%nat 42).
  - reflexivity.
  - discriminate.
Defined.

(** ** Releasing a name *)

Section Release.
Context {P : Provider} `{PyRuntime}.

Lemma count_release_app t1 t2 :
  count_release (t1 ++ t2) = (count_release t1 + count_release t2)%nat.
Proof. unfold count_release. now rewrite List.filter_app, length_app. Qed.

Lemma count_release_decode t :
  forallb is_decode_call t = true -> count_release t = 0%nat.
Proof.
  induction t as [|c t IH]; [reflexivity|]. simpl.
  intros Hc. apply andb_true_iff in Hc as [Hc Ht].
  unfold count_release in *. simpl. destruct c; try discriminate; auto.
Qed.

Lemma decodes_count_release (w w' : World P) :
  decodes w w' -> count_release (trace w') = count_release (trace w).
Proof.
  intros [_ (t & -> & Hd)]. rewrite count_release_app.
  rewrite (count_release_decode t Hd). lia.
Qed.


Lemma call_release_name_eq h (w : World P) :
  call_release_name h w =
  (fst (gss_release_name P (raw_name w h) (prov w)),
   mkWorld (<[h := rn_name (fst (gss_release_name P (raw_name w h) (prov w)))]>
              (objs w))
           (snd (gss_release_name P (raw_name w h) (prov w)))
           (trace w ++ [Call_release_name (raw_name w h)])).
Proof.
  unfold call_release_name.
  now destruct (gss_release_name P (raw_name w h) (prov w)).
Qed.

(** A handle that is not in the sentinel state is destroyed the way it is
    released. *)
Lemma Name__dealloc___live fuel h (w : World P) :
  raw_name w h <> GSS_C_NO_NAME ->
  Name__dealloc__ fuel h w = release_name fuel h w.
Proof.
  intros Hlive. unfold Name__dealloc__, release_name.
  apply Z.eqb_neq in Hlive. rewrite Hlive. reflexivity.
Qed.

(** [release_name] calls the provider's release once, whatever the state of
    the handle. *)
Lemma release_name_calls_provider fuel h (w : World P) o w' :
  release_name fuel h w = Some (o, w') ->
  count_release (trace w') = S (count_release (trace w)).
Proof.
  unfold release_name. rewrite call_release_name_eq.
  set (rp := gss_release_name P (raw_name w h) (prov w)).
  destruct (negb (u32 (rn_maj_stat (fst rp)) =? GSS_S_COMPLETE)).
  - intros Hr.
    apply raise_GSSError_sound in Hr as [Hdec _]; try apply u32_unsigned.
    apply decodes_count_release in Hdec. rewrite Hdec. simpl.
    rewrite count_release_app. unfold count_release at 2. simpl. lia.
  - intros Hr. inversion Hr; subst. simpl.
    rewrite count_release_app. unfold count_release at 2. simpl. lia.
Qed.

End Release.


(** C2 on the code: [release_name] has no test for the sentinel. After a
    first, successful release the handle is the sentinel, and a second
    [release_name] calls the provider's release again, on the null name;
    with a provider that rejects the null name the second call raises. *)
Theorem release_name_twice_calls_provider_twice :
  let w := world0 demo_provider tt in
  exists w1 e w2,
    release_name 20 0%nat w = Some (Return tt, w1) /\
    raw_name w1 0%nat = GSS_C_NO_NAME /\
    trace w1 = [Call_release_name 42] /\
    release_name 20 0%nat w1 = Some (Raise (Exn_GSSError e), w2) /\
    maj_code e = GSS_S_BAD_NAME /\
    firstn 2 (trace w2) = [Call_release_name 42; Call_release_name 0] /\
    count_release (trace w2) = 2%nat.
Proof.
  eexists _, _, _. split; [vm_compute; reflexivity|].
  split; [reflexivity|]. split; [reflexivity|].
  split; [vm_compute; reflexivity|].
  split; [reflexivity|]. split; reflexivity.
Qed.

(** ** The decoder: what it returns, and when *)

Section Decoder_results.
Context {P : Provider} `{PyRuntime}.

(** [get_all_statuses] raises no [GSSError], and a list it returns is not
    empty. *)
Lemma get_all_statuses_sound fuel c m (w : World P) o w' :
  is_unsigned_int c = true ->
  get_all_statuses fuel c m w = Some (o, w') ->
  decodes w w' /\ exists l, o = Return l /\ l <> [].
Proof.
  intros Hc Hrun.
  destruct (decode_sound (P := P) fuel) as (_ & _ & _ & Hgas & _).
  apply Hgas in Hrun as [Hdec Hpost]. split; [assumption|].
  destruct o as [l|[e|]]; simpl in Hpost.
  - now exists l.
  - contradiction.
  - congruence.
Qed.

(** When a query raises [GSSError], the placeholder takes the place of the
    message and the loop stops: on the first query, and on a later one. *)
Lemma get_all_statuses_first_fails fuel c m (w : World P) e w1 :
  display_status fuel c m None 0 w = Some (Raise (Exn_GSSError e), w1) ->
  get_all_statuses (S fuel) c m w = Some (Return [placeholder c], w1).
Proof.
  intros Hds. rewrite get_all_statuses_S.
  unfold bind, decode_step, try_except_GSSError, bind. rewrite Hds.
  destruct fuel as [|fuel]; [discriminate|]. reflexivity.
Qed.

Lemma while_cont_step_fails fuel c m res ctx (w : World P) e w1 :
  display_status fuel c m None ctx w = Some (Raise (Exn_GSSError e), w1) ->
  while_cont (S fuel) c m res ctx true w =
  Some (Return (res ++ [placeholder c]), w1).
Proof.
  intros Hds. rewrite while_cont_S.
  unfold bind, decode_step, try_except_GSSError, bind. rewrite Hds.
  destruct fuel as [|fuel]; [discriminate|]. reflexivity.
Qed.

End Decoder_results.

(** *** A provider that always fails *)

Lemma failing_provider_diverges fuel :
  (forall c m x (w : World failing_provider),
      is_unsigned_int c && is_unsigned_int x = true ->
      display_status fuel c m None x w = None) /\
  (forall maj min (w : World failing_provider),
      is_unsigned_int maj = true ->
      GSSError__init__ fuel maj min w = None) /\
  (forall maj min (w : World failing_provider),
      is_unsigned_int maj = true ->
      gen_message fuel maj min w = None) /\
  (forall c m (w : World failing_provider),
      is_unsigned_int c = true ->
      get_all_statuses fuel c m w = None).
Proof.
  induction fuel as [|fuel (IHds & IHinit & IHgen & IHgas)].
  - repeat split; reflexivity.
  - repeat apply conj.
    + intros c m x w Hrange. rewrite display_status_S, Hrange. simpl negb.
      cbv beta iota zeta. rewrite call_display_status_eq. cbn [fst snd].
      change (u32 (ds_maj_stat _) =? GSS_S_COMPLETE) with false.
      cbv iota. unfold raise_GSSError, bind. now rewrite IHinit.
    + intros maj min w Hmaj. rewrite GSSError__init___S. unfold bind.
      now rewrite IHgen.
    + intros maj min w Hmaj. rewrite gen_message_S. unfold bind.
      now rewrite IHgas.
    + intros c m w Hc. rewrite get_all_statuses_S.
      unfold bind, decode_step, try_except_GSSError, bind.
      rewrite IHds; [reflexivity|]. now rewrite Hc.
Qed.

(** C4 on the code. When every call of [gss_display_status] fails, the
    first query of [get_all_statuses] never comes back with the [GSSError]
    the handler waits for: [display_status] has to build that exception,
    building it decodes the codes of the failure, and each of these queries
    fails in turn. No amount of fuel yields a list, not even the
    placeholder. *)
Theorem get_all_statuses_all_failing_never_returns :
  forall fuel,
    get_all_statuses fuel 13 true (world0 failing_provider tt) = None.
Proof.
  intros fuel. now apply failing_provider_diverges.
Qed.

(** *** A provider that always announces another message *)



(** ** The message of a [GSSError] *)

Section Strings.

Lemma str_app_assoc (a b c : string) : ((a ++ b) ++ c = a ++ b ++ c)%string.
Proof.
  induction a as [|x a IH]; [reflexivity|]. exact (f_equal (String x) IH).
Qed.

Lemma str_app_nil_r (a : string) : (a ++ EmptyString = a)%string.
Proof.
  induction a as [|x a IH]; [reflexivity|]. exact (f_equal (String x) IH).
Qed.

Lemma contains_prefix (a b : string) : contains a (a ++ b).
Proof. exists EmptyString, b. reflexivity. Qed.

Lemma contains_refl (a : string) : contains a a.
Proof.
  exists EmptyString, EmptyString. symmetry. exact (str_app_nil_r a).
Qed.

Lemma contains_app_r (a b x : string) : contains a b -> contains a (x ++ b).
Proof.
  intros (pre & post & ->). exists (x ++ pre)%string, post.
  now rewrite str_app_assoc.
Qed.

Lemma contains_app_l (a b y : string) : contains a b -> contains a (b ++ y).
Proof.
  intros (pre & post & ->). exists pre, (post ++ y)%string.
  now rewrite !str_app_assoc.
Qed.

Lemma contains_join_head (sep s : string) (tl : list string) :
  contains s (join sep (s :: tl)).
Proof.
  destruct tl as [|s' tl]; [apply contains_refl | apply contains_prefix].
Qed.

End Strings.

Section Message.
Context `{PyRuntime}.

Lemma format_message_major maj majs min mins :
  contains ("Major (" ++ py_str_int maj ++ ")")
           (format_message maj majs min mins).
Proof.
  unfold format_message.
  exists EmptyString,
    (": " ++ py_str_list majs ++ ", Minor (" ++ py_str_int min ++ "): "
          ++ py_str_list mins)%string.
  rewrite !str_app_assoc. reflexivity.
Qed.

Lemma format_message_minor maj majs min mins :
  contains ("Minor (" ++ py_str_int min ++ ")")
           (format_message maj majs min mins).
Proof.
  unfold format_message.
  exists ("Major (" ++ py_str_int maj ++ "): " ++ py_str_list majs ++ ", ")%string,
    (": " ++ py_str_list mins)%string.
  rewrite !str_app_assoc. reflexivity.
Qed.

Lemma py_str_list_head m l : contains (bytes_repr m) (py_str_list (m :: l)).
Proof.
  unfold py_str_list. apply contains_app_r, contains_app_l.
  simpl map. apply contains_join_head.
Qed.

Lemma format_message_first_major maj m majs min mins :
  contains (bytes_repr m) (format_message maj (m :: majs) min mins).
Proof.
  unfold format_message.
  do 3 apply contains_app_r. apply contains_app_l, py_str_list_head.
Qed.

Lemma format_message_first_minor maj majs min m mins :
  contains (bytes_repr m) (format_message maj majs min (m :: mins)).
Proof.
  unfold format_message. do 7 apply contains_app_r. apply py_str_list_head.
Qed.

End Message.

(** The scenario of the specification, computed. *)
Example GSSError_message_13_0 :
  exists w',
    GSSError__init__ 5 13 0 (world0 demo_provider tt) =
    Some (Return (mkGSSError 13 0
      "Major (13): [b'first', b'second'], Minor (0): [b'Unknown error']"), w').
Proof. eexists. vm_compute. reflexivity. Qed.

Example GSSError_message_13_7 :
  exists w',
    GSSError__init__ 9 13 7 (world0 demo_provider tt) =
    Some (Return (mkGSSError 13 7
      "Major (13): [b'first', b'second'], Minor (7): [b'issue decoding code: 7']"),
          w').
Proof. eexists. vm_compute. reflexivity. Qed.

(** ** Handles that a provider call fills *)

Section New_names.
Context {X : NameProvider} `{PyRuntime}.

(** [Name()] allocates an object that is not in the store, in the sentinel
    state, without any call to the provider. *)
Lemma Name_new_default (w : World X) :
  let on := fresh (dom (objs w)) in
  Name_new None w =
  (on, mkWorld (<[on := GSS_C_NO_NAME]> (objs w)) (prov w) (trace w)) /\
  objs w !! on = None.
Proof.
  intros on. split.
  - unfold Name_new, Name__cinit__, set_raw_name. simpl. fold on.
    now rewrite insert_insert_eq.
  - apply not_elem_of_dom, is_fresh.
Qed.

Lemma return_new_name_success fuel r (w : World X) :
  u32 (nr_maj_stat r) = GSS_S_COMPLETE ->
  let on := fresh (dom (objs w)) in
  return_new_name fuel r w =
  Some (Return on,
        mkWorld (<[on := nr_output_name r]> (objs w)) (prov w) (trace w)) /\
  objs w !! on = None.
Proof.
  intros Hmaj on. destruct (Name_new_default w) as [Hnew Hfresh]. fold on in Hnew, Hfresh.
  split; [|assumption].
  unfold return_new_name. rewrite Hnew. apply Z.eqb_eq in Hmaj. rewrite Hmaj.
  unfold ret, set_raw_name. simpl. now rewrite insert_insert_eq.
Qed.

Lemma return_new_name_failure fuel r (w : World X) o w' :
  u32 (nr_maj_stat r) <> GSS_S_COMPLETE ->
  return_new_name fuel r w = Some (o, w') ->
  (exists e, o = Raise (Exn_GSSError e) /\
             maj_code e = u32 (nr_maj_stat r) /\
             min_code e = u32 (nr_min_stat r)) /\
  objs w' = <[fresh (dom (objs w)) := GSS_C_NO_NAME]> (objs w) /\
  count_release (trace w') = count_release (trace w).
Proof.
  intros Hmaj Hrun. destruct (Name_new_default w) as [Hnew _].
  unfold return_new_name in Hrun. rewrite Hnew in Hrun.
  apply Z.eqb_neq in Hmaj. rewrite Hmaj in Hrun.
  apply raise_GSSError_sound in Hrun as [Hdec He]; try apply u32_unsigned.
  split; [assumption|]. split.
  - now destruct Hdec as [-> _].
  - now rewrite (decodes_count_release _ _ Hdec).
Qed.

(** After a failure the objects of before are as they were, and every
    other object is in the sentinel state. *)
Lemma failed_new_name_holds_nothing (w w' : World X) :
  objs w' = <[fresh (dom (objs w)) := GSS_C_NO_NAME]> (objs w) ->
  (forall k r, objs w !! k = Some r -> objs w' !! k = Some r) /\
  (forall k r, objs w' !! k = Some r ->
               objs w !! k = Some r \/ r = GSS_C_NO_NAME).
Proof.
  intros Ho. pose proof (is_fresh (dom (objs w))) as Hfresh.
  apply not_elem_of_dom in Hfresh. split.
  - intros k r Hk. rewrite Ho. rewrite lookup_insert_ne; [assumption|].
    intros <-. congruence.
  - intros k r. rewrite Ho.
    destruct (decide (fresh (dom (objs w)) = k)) as [<-|Hne].
    + rewrite lookup_insert_eq. intros [= <-]. now right.
    + rewrite lookup_insert_ne by assumption. now left.
Qed.

End New_names.

(** ** [import_name] *)

(** X1. When the provider imports the string, [import_name] returns an
    object that was not in the store before, holding exactly the name the
    provider produced; every other object is as it was, the provider state
    is the one the import left, and no release, comparison, display or
    status call was made. An absent [name_type] reaches the provider as
    [GSS_C_NO_OID], a present one as its descriptor. *)
Theorem import_name_returns_fresh_handle
    {X : NameProvider} `{PyRuntime} fuel name name_type (w : World X) :
  let nt := match name_type with
            | None => GSS_C_NO_OID
            | Some o => Some (raw_oid o)
            end in
  let rp := gss_import_name X name nt (prov w) in
  u32 (nr_maj_stat (fst rp)) = GSS_S_COMPLETE ->
  exists on,
    objs w !! on = None /\
    import_name fuel name name_type w =
    Some (Return on,
          mkWorld (<[on := nr_output_name (fst rp)]> (objs w)) (snd rp)
                  (trace w)).
Proof.
  intros nt rp Hmaj. exists (fresh (dom (objs w))).
  unfold import_name. fold nt. fold rp. destruct rp as [r p]. simpl in *.
  destruct (return_new_name_success fuel r (set_prov p w) Hmaj) as [Hrun Hf].
  split; [exact Hf | exact Hrun].
Qed.

Lemma import_name_returns_fresh_handle_witness :
  exists on,
    objs (world0 demo_name_provider tt) !! on = None /\
    import_name 0 (encode_utf8 "alice@EXAMPLE.COM") None
      (world0 demo_name_provider tt) =
    Some (Return on,
          mkWorld (P := demo_name_provider)
            (<[on := 77]> {[ 0%nat := 42 ]}) tt []).
Proof.
  exact (import_name_returns_fresh_handle (X := demo_name_provider) 0
           (encode_utf8 "alice@EXAMPLE.COM") None
           (world0 demo_name_provider tt) eq_refl).
Defined.

(** ** [duplicate_name], [canonicalize_name], [export_name] *)

(** X3. A successful [duplicate_name] returns an object other than its
    argument, holding the name the provider produced, and leaves the
    argument as it was. Releasing the duplicate afterwards (the provider
    succeeding) puts the duplicate in the sentinel state and still leaves
    the argument as it was: one release call in all. *)
Theorem duplicate_name_is_independent
    {X : NameProvider} `{PyRuntime} fuel h r (w : World X) :
  let dp := gss_duplicate_name X r (prov w) in
  let rp := gss_release_name X (nr_output_name (fst dp)) (snd dp) in
  objs w !! h = Some r ->
  u32 (nr_maj_stat (fst dp)) = GSS_S_COMPLETE ->
  u32 (rn_maj_stat (fst rp)) = GSS_S_COMPLETE ->
  exists on w1 w2,
    duplicate_name fuel h w = Some (Return on, w1) /\
    objs w !! on = None /\
    on <> h /\
    raw_name w1 on = nr_output_name (fst dp) /\
    raw_name w1 h = r /\
    release_name fuel on w1 = Some (Return tt, w2) /\
    raw_name w2 on = GSS_C_NO_NAME /\
    raw_name w2 h = r /\
    count_release (trace w2) = S (count_release (trace w)).
Proof.
  intros dp rp Hh Hdup Hrel.
  pose proof (raw_name_lookup _ _ _ Hh) as Hraw.
  set (on := fresh (dom (objs w))).
  assert (Hfresh : objs w !! on = None) by apply not_elem_of_dom, is_fresh.
  assert (Hne : on <> h) by congruence.
  set (w1 := mkWorld (P := X) (<[on := nr_output_name (fst dp)]> (objs w))
                     (snd dp) (trace w)).
  assert (Hrun1 : duplicate_name fuel h w = Some (Return on, w1)).
  { unfold duplicate_name. rewrite Hraw. fold dp. destruct dp as [d p].
    simpl in *.
    now destruct (return_new_name_success fuel d (set_prov p w) Hdup). }
  assert (Hon : raw_name w1 on = nr_output_name (fst dp)).
  { unfold raw_name, w1. simpl. apply lookup_total_insert_eq. }
  assert (Hh1 : raw_name w1 h = r).
  { unfold raw_name, w1. simpl. rewrite lookup_total_insert_ne by assumption.
    exact Hraw. }
  set (w2 := set_raw_name on NULL (snd (call_release_name on w1))).
  assert (Hrun2 : release_name fuel on w1 = Some (Return tt, w2)).
  { unfold release_name, w2. rewrite call_release_name_eq, Hon.
    change (prov w1) with (snd dp). fold rp. cbn [fst snd].
    apply Z.eqb_eq in Hrel. now rewrite Hrel. }
  exists on, w1, w2. repeat (split; [assumption|]).
  split; [apply raw_name_set_eq|]. split.
  - unfold w2. rewrite raw_name_set_ne by assumption.
    rewrite call_release_name_eq. unfold raw_name. simpl.
    rewrite !lookup_total_insert_ne by assumption. exact Hraw.
  - now rewrite (release_name_calls_provider _ _ _ _ _ Hrun2).
Qed.

Lemma duplicate_name_is_independent_witness :
  exists on w1 w2,
    duplicate_name 0 0%nat (world0 demo_name_provider tt)
    = Some (Return on, w1) /\
    objs (world0 demo_name_provider tt) !! on = None /\
    on <> 0%nat /\
    raw_name w1 on = 142 /\
    raw_name w1 0%nat = 42 /\
    release_name 0 on w1 = Some (Return tt, w2) /\
    raw_name w2 on = GSS_C_NO_NAME /\
    raw_name w2 0%nat = 42 /\
    count_release (trace w2) = 1%nat.
Proof.
  exact (duplicate_name_is_independent (X := demo_name_provider) 0 0%nat 42
           (world0 demo_name_provider tt) eq_refl eq_refl eq_refl).
Defined.

(** ** Releasing once *)

(** X6. When the provider's release succeeds, [release_name] makes one call
    to it, on the name the handle held, and leaves the handle in the
    sentinel state whatever the provider wrote there; the other objects are
    as they were. Destroying the object afterwards does nothing: the name
    is released once in all. *)
Theorem release_name_then_dealloc_releases_once
    {P : Provider} `{PyRuntime} h (w : World P) :
  let rp := gss_release_name P (raw_name w h) (prov w) in
  u32 (rn_maj_stat (fst rp)) = GSS_S_COMPLETE ->
  exists w1,
    (forall fuel, release_name fuel h w = Some (Return tt, w1)) /\
    raw_name w1 h = GSS_C_NO_NAME /\
    (forall k, k <> h -> objs w1 !! k = objs w !! k) /\
    prov w1 = snd rp /\
    trace w1 = trace w ++ [Call_release_name (raw_name w h)] /\
    (forall fuel, Name__dealloc__ fuel h w1 = Some (Return tt, w1)).
Proof.
  intros rp Hmaj.
  set (w1 := set_raw_name h NULL (snd (call_release_name h w))).
  assert (Hs : raw_name w1 h = GSS_C_NO_NAME) by apply raw_name_set_eq.
  exists w1. split; [|split; [assumption|split; [|split; [|split]]]].
  - intros fuel. unfold release_name, w1. rewrite call_release_name_eq.
    fold rp. cbn [fst snd]. apply Z.eqb_eq in Hmaj. now rewrite Hmaj.
  - intros k Hk. unfold w1. rewrite call_release_name_eq.
    unfold set_raw_name. simpl. now rewrite !lookup_insert_ne by congruence.
  - unfold w1. now rewrite call_release_name_eq.
  - unfold w1. now rewrite call_release_name_eq.
  - intros fuel. now apply Name__dealloc___sentinel.
Qed.

Lemma release_name_then_dealloc_witness :
  exists w1,
    (forall fuel,
        release_name fuel 0%nat (world0 demo_provider tt)
        = Some (Return tt, w1)) /\
    raw_name w1 0%nat = GSS_C_NO_NAME /\
    (forall k, k <> 0%nat ->
               objs w1 !! k = objs (world0 demo_provider tt) !! k) /\
    prov w1 = tt /\
    trace w1 = [Call_release_name 42] /\
    (forall fuel, Name__dealloc__ fuel 0%nat w1 = Some (Return tt, w1)).
Proof.
  exact (release_name_then_dealloc_releases_once (P := demo_provider) 0%nat
           (world0 demo_provider tt) eq_refl).
Defined.

(** X7. Destroying a handle that holds a name, the provider's release
    succeeding, makes one release call and leaves the sentinel; destroying
    it a second time makes no call and changes nothing. *)
Theorem dealloc_twice_releases_once
    {P : Provider} `{PyRuntime} h (w : World P) :
  let rp := gss_release_name P (raw_name w h) (prov w) in
  raw_name w h <> GSS_C_NO_NAME ->
  u32 (rn_maj_stat (fst rp)) = GSS_S_COMPLETE ->
  exists w1,
    (forall fuel, Name__dealloc__ fuel h w = Some (Return tt, w1)) /\
    raw_name w1 h = GSS_C_NO_NAME /\
    count_release (trace w1) = S (count_release (trace w)) /\
    (forall fuel, Name__dealloc__ fuel h w1 = Some (Return tt, w1)).
Proof.
  intros rp Hlive Hmaj.
  set (w1 := set_raw_name h NULL (snd (call_release_name h w))).
  assert (Hrun : forall fuel, Name__dealloc__ fuel h w = Some (Return tt, w1)).
  { intros fuel. rewrite Name__dealloc___live by assumption.
    unfold release_name, w1. rewrite call_release_name_eq.
    fold rp. cbn [fst snd]. apply Z.eqb_eq in Hmaj. now rewrite Hmaj. }
  exists w1. split; [assumption|]. split; [apply raw_name_set_eq|]. split.
  - specialize (Hrun 0%nat). rewrite Name__dealloc___live in Hrun by assumption.
    now apply release_name_calls_provider in Hrun.
  - intros fuel. apply Name__dealloc___sentinel, raw_name_set_eq.
Qed.

Lemma dealloc_twice_witness :
  exists w1,
    (forall fuel,
        Name__dealloc__ fuel 0%nat (world0 demo_provider tt)
        = Some (Return tt, w1)) /\
    raw_name w1 0%nat = GSS_C_NO_NAME /\
    count_release (trace w1) = 1%nat /\
    (forall fuel, Name__dealloc__ fuel 0%nat w1 = Some (Return tt, w1)).
Proof.
  refine (dealloc_twice_releases_once (P := demo_provider) 0%nat
            (world0 demo_provider tt) _ eq_refl).
  discriminate.
Defined.

(** ** One owner per name *)

Section Owners.

Lemma unique_owners_insert_sentinel objs k :
  unique_owners objs -> unique_owners (<[k := GSS_C_NO_NAME]> objs).
Proof.
  intros Hu a b r Ha Hb Hr.
  destruct (decide (k = a)) as [->|Hka].
  { rewrite lookup_insert_eq in Ha. congruence. }
  destruct (decide (k = b)) as [->|Hkb].
  { rewrite lookup_insert_eq in Hb. congruence. }
  rewrite lookup_insert_ne in Ha, Hb by assumption. eauto.
Qed.

Lemma unique_owners_insert_unowned objs k r :
  unique_owners objs -> unowned objs r ->
  unique_owners (<[k := r]> objs).
Proof.
  intros Hu Hr a b r' Ha Hb Hr'.
  destruct (decide (k = a)) as [<-|Hka]; destruct (decide (k = b)) as [<-|Hkb];
    try reflexivity.
  - rewrite lookup_insert_eq in Ha. rewrite lookup_insert_ne in Hb by assumption.
    injection Ha as <-. now apply Hr in Hb.
  - rewrite lookup_insert_eq in Hb. rewrite lookup_insert_ne in Ha by assumption.
    injection Hb as <-. now apply Hr in Ha.
  - rewrite lookup_insert_ne in Ha, Hb by assumption. eauto.
Qed.

End Owners.

(** X8. Ownership transfer keeps the rule of one owner per name: if no
    name has two owners before [Name(other)], none has two owners after. *)
Theorem Name_transfer_keeps_unique_owners
    {P : Provider} (w : World P) other r :
  objs w !! other = Some r ->
  unique_owners (objs w) ->
  unique_owners (objs (snd (Name_new (Some other) w))).
Proof.
  intros Hother Hu.
  set (new := fresh (dom (objs w))).
  assert (Hfresh : objs w !! new = None) by apply not_elem_of_dom, is_fresh.
  assert (Hne : new <> other) by congruence.
  unfold Name_new, Name__cinit__, set_raw_name. simpl. fold new.
  unfold raw_name. simpl. rewrite lookup_total_insert_ne by assumption.
  rewrite lookup_total_alt, Hother. simpl. rewrite insert_insert_eq.
  intros a b r' Ha Hb Hr'.
  destruct (decide (other = a)) as [->|Hoa].
  { rewrite lookup_insert_eq in Ha. congruence. }
  destruct (decide (other = b)) as [->|Hob].
  { rewrite lookup_insert_eq in Hb. congruence. }
  rewrite lookup_insert_ne in Ha, Hb by assumption.
  destruct (decide (new = a)) as [<-|Hna]; destruct (decide (new = b)) as [<-|Hnb];
    try reflexivity.
  - rewrite lookup_insert_eq in Ha. rewrite lookup_insert_ne in Hb by assumption.
    injection Ha as <-. exfalso. apply Hob. now apply (Hu other b r).
  - rewrite lookup_insert_eq in Hb. rewrite lookup_insert_ne in Ha by assumption.
    injection Hb as <-. exfalso. apply Hoa. now apply (Hu other a r).
  - rewrite lookup_insert_ne in Ha, Hb by assumption. eauto.
Qed.

Lemma world0_unique_owners (P : Provider) (p : PState P) :
  unique_owners (objs (world0 P p)).
Proof.
  intros a b r Ha Hb _. simpl in *.
  apply lookup_singleton_Some in Ha as [<- _].
  now apply lookup_singleton_Some in Hb as [<- _].
Qed.

Lemma Name_transfer_keeps_unique_owners_witness :
  unique_owners
    (objs (snd (Name_new (Some 0%nat) (world0 demo_provider tt)))).
Proof.
  exact (Name_transfer_keeps_unique_owners (world0 demo_provider tt) 0%nat 42
           eq_refl (world0_unique_owners demo_provider tt)).
Defined.

(** X9. A successful release keeps the rule of one owner per name, by
    [release_name] and by destruction alike, whatever value the provider
    wrote into the handle. *)
Theorem release_keeps_unique_owners
    {P : Provider} `{PyRuntime} fuel h (w : World P) w' :
  unique_owners (objs w) ->
  release_name fuel h w = Some (Return tt, w') \/
  Name__dealloc__ fuel h w = Some (Return tt, w') ->
  unique_owners (objs w').
Proof.
  intros Hu Hrun.
  assert (Hrel : release_name fuel h w = Some (Return tt, w') ->
                 unique_owners (objs w')).
  { unfold release_name. rewrite call_release_name_eq. cbn [fst snd].
    destruct (negb _).
    - intros Hr.
      apply raise_GSSError_sound in Hr as [_ (e & He & _)];
        try apply u32_unsigned.
      discriminate.
    - intros Hr. inversion Hr; subst. unfold set_raw_name. simpl.
      rewrite insert_insert_eq. now apply unique_owners_insert_sentinel. }
  destruct Hrun as [Hrun|Hrun]; [now apply Hrel|].
  destruct (Z.eq_dec (raw_name w h) GSS_C_NO_NAME) as [Hs|Hlive].
  - rewrite Name__dealloc___sentinel in Hrun by assumption.
    now inversion Hrun; subst.
  - rewrite Name__dealloc___live in Hrun by assumption. now apply Hrel.
Qed.

Lemma release_keeps_unique_owners_witness :
  unique_owners
    (objs (mkWorld (P := demo_provider) {[ 0%nat := NULL ]} tt
             [Call_release_name 42])).
Proof.
  refine (release_keeps_unique_owners (P := demo_provider) 0 0%nat
            (world0 demo_provider tt) _
            (world0_unique_owners demo_provider tt) (or_introl eq_refl)).
Defined.

(** X10. A handle filled by the provider keeps the rule of one owner per
    name as long as the provider hands out a name that no object holds:
    this is so for [import_name], [duplicate_name] and
    [canonicalize_name]. *)
Theorem new_names_keep_unique_owners
    {X : NameProvider} `{PyRuntime} fuel (w : World X) on w' :
  unique_owners (objs w) ->
  (forall name name_type,
      import_name fuel name name_type w = Some (Return on, w') ->
      unowned (objs w) (raw_name w' on) ->
      unique_owners (objs w')) /\
  (forall h,
      duplicate_name fuel h w = Some (Return on, w') ->
      unowned (objs w) (raw_name w' on) ->
      unique_owners (objs w')) /\
  (forall h mech,
      canonicalize_name fuel h mech w = Some (Return on, w') ->
      unowned (objs w) (raw_name w' on) ->
      unique_owners (objs w')).
Proof.
  intros Hu.
  assert (Hnew : forall r p,
    return_new_name fuel r (set_prov p w) = Some (Return on, w') ->
    unowned (objs w) (raw_name w' on) -> unique_owners (objs w')).
  { intros r p Hrun Hun.
    destruct (u32 (nr_maj_stat r) =? GSS_S_COMPLETE) eqn:Hmaj.
    - apply Z.eqb_eq in Hmaj.
      destruct (return_new_name_success fuel r (set_prov p w) Hmaj) as [Hs _].
      rewrite Hs in Hrun. inversion Hrun; subst. simpl in *.
      apply unique_owners_insert_unowned; [assumption|].
      unfold raw_name in Hun. simpl in Hun.
      now rewrite lookup_total_insert_eq in Hun.
    - apply Z.eqb_neq in Hmaj.
      apply return_new_name_failure in Hrun as [(e & He & _) _];
        [discriminate|assumption]. }
  split; [|split].
  - intros name name_type. unfold import_name.
    destruct (gss_import_name _ _ _ _) as [r p]. apply Hnew.
  - intros h. unfold duplicate_name.
    destruct (gss_duplicate_name _ _ _) as [r p]. apply Hnew.
  - intros h mech. unfold canonicalize_name.
    destruct (gss_canonicalize_name _ _ _ _) as [r p]. apply Hnew.
Qed.

Lemma new_names_keep_unique_owners_witness :
  unique_owners
    (objs (mkWorld (P := demo_name_provider)
             (<[1%nat := 77]> {[ 0%nat := 42 ]}) tt [])).
Proof.
  refine (proj1 (new_names_keep_unique_owners (X := demo_name_provider) 0
                   (world0 demo_name_provider tt) 1%nat _
                   (world0_unique_owners demo_name_provider tt))
            (encode_utf8 "bob") None eq_refl _).
  intros a Ha. simpl in Ha.
  apply lookup_singleton_Some in Ha as [_ Ha]. discriminate.
Defined.

(** ** Operations that only read a handle *)

(** X11. [display_name], [compare_name] and [export_name] never change a
    [Name] object and never call the provider's release, whether they
    return or raise. *)
Theorem reading_operations_keep_handles
    {X : NameProvider} `{PyRuntime} fuel (w : World X) :
  (forall h name_type o w',
      display_name fuel h name_type w = Some (o, w') ->
      objs w' = objs w /\
      count_release (trace w') = count_release (trace w)) /\
  (forall name1 name2 o w',
      compare_name fuel name1 name2 w = Some (o, w') ->
      objs w' = objs w /\
      count_release (trace w') = count_release (trace w)) /\
  (forall h o w',
      export_name fuel h w = Some (o, w') ->
      objs w' = objs w /\
      count_release (trace w') = count_release (trace w)).
Proof.
  assert (Hraise : forall A maj min (w1 : World X) (o : outcome A) w',
    objs w1 = objs w ->
    count_release (trace w1) = count_release (trace w) ->
    raise_GSSError fuel (u32 maj) (u32 min) w1 = Some (o, w') ->
    objs w' = objs w /\ count_release (trace w') = count_release (trace w)).
  { intros A maj min w1 o w' Ho Hc Hrun.
    apply raise_GSSError_sound in Hrun as [Hdec _]; try apply u32_unsigned.
    rewrite (decodes_count_release _ _ Hdec). destruct Hdec as [-> _]. auto. }
  split; [|split].
  - intros h name_type o w'. unfold display_name, call_display_name.
    destruct (gss_display_name _ _ _ _) as [r p].
    destruct (u32 (dn_maj_stat r) =? GSS_S_COMPLETE).
    + intros Hr. inversion Hr; subst. split; [reflexivity|]. simpl.
      rewrite !count_release_app. unfold count_release at 2 3. simpl. lia.
    + apply Hraise; [reflexivity|]. simpl. rewrite count_release_app.
      unfold count_release at 2. simpl. lia.
  - intros [n1|] [n2|] o w'; unfold compare_name, call_compare_name;
      try (intros Hr; inversion Hr; subst; now split).
    destruct (gss_compare_name _ _ _ _) as [r p].
    destruct (u32 (cn_maj_stat r) =? GSS_S_COMPLETE).
    + intros Hr. inversion Hr; subst. split; [reflexivity|]. simpl.
      rewrite count_release_app. unfold count_release at 2. simpl. lia.
    + apply Hraise; [reflexivity|]. simpl. rewrite count_release_app.
      unfold count_release at 2. simpl. lia.
  - intros h o w'. unfold export_name.
    destruct (gss_export_name _ _ _) as [r p].
    destruct (u32 (br_maj_stat r) =? GSS_S_COMPLETE).
    + intros Hr. inversion Hr; subst. split; [reflexivity|]. simpl.
      rewrite count_release_app. unfold count_release at 2. simpl. lia.
    + now apply Hraise.
Qed.

Lemma reading_operations_keep_handles_witness :
  objs (mkWorld (P := demo_name_provider) {[ 0%nat := 42 ]} tt
          [Call_compare_name 42 42])
  = objs (world0 demo_name_provider tt) /\
  count_release [Call_compare_name 42 42]
  = count_release (trace (world0 demo_name_provider tt)).
Proof.
  eapply (proj1 (proj2 (reading_operations_keep_handles
                          (X := demo_name_provider) 0
                          (world0 demo_name_provider tt)))
            (Some 0%nat) (Some 0%nat)).
  reflexivity.
Defined.

(** X12. Decoding statuses never touches a handle: [display_status],
    [get_all_statuses] and the construction of a [GSSError] leave every
    [Name] object as it was, and the only calls they make to the provider
    are status queries and releases of message buffers. *)
Theorem decoding_keeps_handles
    {P : Provider} `{PyRuntime} fuel (w : World P) :
  (forall c m mech x o w',
      display_status fuel c m mech x w = Some (o, w') -> decodes w w') /\
  (forall c m o w',
      get_all_statuses fuel c m w = Some (o, w') -> decodes w w') /\
  (forall maj min o w',
      GSSError__init__ fuel maj min w = Some (o, w') -> decodes w w').
Proof.
  destruct (decode_sound (P := P) fuel) as (Hds & Hinit & _ & Hgas & _).
  split; [|split].
  - intros c m mech x o w' Hrun. now apply Hds in Hrun.
  - intros c m o w' Hrun. now apply Hgas in Hrun.
  - intros maj min o w' Hrun. now apply Hinit in Hrun.
Qed.

Lemma decoding_keeps_handles_witness :
  decodes (world0 demo_provider tt)
    (mkWorld (P := demo_provider) {[ 0%nat := 42 ]} tt
       [Call_display_status 13 GSS_C_GSS_CODE GSS_C_NO_OID 0;
        Call_release_buffer (encode_utf8 "first");
        Call_display_status 13 GSS_C_GSS_CODE GSS_C_NO_OID 1;
        Call_release_buffer (encode_utf8 "second")]).
Proof.
  eapply (proj1 (proj2 (decoding_keeps_handles (P := demo_provider) 4
                          (world0 demo_provider tt))) 13 true).
  reflexivity.
Defined.

(** ** The decoder follows the provider's chain of replies *)

Section Chain.
Context {P : Provider} `{PyRuntime}.

(** The first query of [get_all_statuses] is an iteration of its loop like
    the others. *)
Lemma get_all_statuses_is_loop fuel c m (w : World P) :
  get_all_statuses fuel c m w = while_cont fuel c m [] 0 true w.
Proof. destruct fuel; reflexivity. Qed.

(** One guarded query, told by the reply of the provider. *)
Lemma decode_step_success fuel c m res x (w : World P) :
  is_unsigned_int c && is_unsigned_int x = true ->
  let rp := gss_display_status P c (status_type_of m) GSS_C_NO_OID x (prov w) in
  u32 (ds_maj_stat (fst rp)) = GSS_S_COMPLETE ->
  decode_step (S fuel) c m res x w =
  Some (Return (res ++ [ds_status_string (fst rp)],
                u32 (ds_message_context (fst rp)),
                negb (u32 (ds_message_context (fst rp)) =? 0)),
        call_release_buffer (ds_status_string (fst rp))
          (log (Call_display_status c (status_type_of m) GSS_C_NO_OID x)
               (snd rp) w)).
Proof.
  intros Hrange rp Hmaj.
  unfold decode_step, try_except_GSSError, bind.
  rewrite display_status_S, Hrange. simpl negb. cbv beta iota zeta.
  rewrite call_display_status_eq. cbn [fst snd]. fold rp.
  apply Z.eqb_eq in Hmaj. now rewrite Hmaj.
Qed.

Lemma while_cont_chain_done n : forall fuel c m res x (w : World P) l p',
  is_unsigned_int c && is_unsigned_int x = true ->
  (n < fuel)%nat ->
  provider_chain n c (status_type_of m) x (prov w) res = Chain_done l p' ->
  exists w',
    while_cont fuel c m res x true w = Some (Return l, w') /\
    prov w' = p' /\ decodes w w'.
Proof.
  induction n as [|n IH]; intros fuel c m res x w l p' Hrange Hfuel Hchain;
    [discriminate|].
  destruct fuel as [|[|fuel]]; try lia.
  simpl in Hchain.
  pose proof (decode_step_success fuel c m res x w Hrange) as Hstep.
  destruct (gss_display_status P c (status_type_of m) GSS_C_NO_OID x (prov w))
    as [r p1] eqn:Hrp.
  cbn [fst snd] in Hstep.
  destruct (u32 (ds_maj_stat r) =? GSS_S_COMPLETE) eqn:Hmaj; [|discriminate].
  apply Z.eqb_eq in Hmaj. specialize (Hstep Hmaj).
  rewrite while_cont_S. unfold bind. rewrite Hstep.
  set (w2 := call_release_buffer _ _) in *.
  assert (Hdec : decodes w w2).
  { eapply decodes_trans; [|apply decodes_release_buffer]. now apply decodes_log. }
  destruct (u32 (ds_message_context r) =? 0) eqn:Hctx.
  - inversion Hchain; subst. exists w2.
    split; [reflexivity|]. split; [reflexivity | exact Hdec].
  - simpl negb.
    destruct (IH (S fuel) c m (res ++ [ds_status_string r])
                 (u32 (ds_message_context r)) w2 l p') as (w' & Hrun & Hp & Hd).
    + apply andb_true_iff in Hrange as [-> _]. now rewrite u32_unsigned.
    + lia.
    + exact Hchain.
    + exists w'. split; [exact Hrun|]. split; [exact Hp|].
      eapply decodes_trans; eassumption.
Qed.

End Chain.

(** X13. When the provider answers the chain of queries for a code without
    failing and ends it with context 0 within [n] queries,
    [get_all_statuses] returns exactly the messages of that chain, in the
    order of the queries, each query carrying the context of the reply
    before it; it leaves the provider in the state the chain leaves, and
    any fuel above [n] is enough. *)
Theorem get_all_statuses_returns_chain
    {P : Provider} `{PyRuntime} n c m (w : World P) l p' :
  is_unsigned_int c = true ->
  provider_chain n c (status_type_of m) 0 (prov w) [] = Chain_done l p' ->
  forall fuel, (n < fuel)%nat ->
    exists w',
      get_all_statuses fuel c m w = Some (Return l, w') /\
      prov w' = p' /\ decodes w w'.
Proof.
  intros Hc Hchain fuel Hfuel. rewrite get_all_statuses_is_loop.
  apply (while_cont_chain_done n); [|assumption..].
  now rewrite Hc.
Qed.

Lemma get_all_statuses_returns_chain_witness :
  exists w',
    get_all_statuses 3 13 true (world0 demo_provider tt)
    = Some (Return [encode_utf8 "first"; encode_utf8 "second"], w') /\
    prov w' = tt /\ decodes (world0 demo_provider tt) w'.
Proof.
  exact (get_all_statuses_returns_chain (P := demo_provider) 2 13 true
           (world0 demo_provider tt) _ tt eq_refl eq_refl 3%nat (le_n 3)).
Defined.

(** ** Codes that do not fit an [unsigned int] *)

(** X15. A code outside the range of an [unsigned int] is refused before
    the provider is asked anything: whatever [get_all_statuses] hands back
    for it is [OverflowError], which [except GSSError] does not catch, so
    no placeholder is substituted; the world is unchanged. The same holds
    for the construction of a [GSSError] whose major code is out of
    range. Two units of fuel, four for the constructor, give the result. *)
Theorem out_of_range_code_raises_OverflowError
    {P : Provider} `{PyRuntime} c (w : World P) :
  is_unsigned_int c = false ->
  (forall fuel m o w',
      get_all_statuses fuel c m w = Some (o, w') ->
      o = Raise Exn_OverflowError /\ w' = w) /\
  (forall m, get_all_statuses 2 c m w = Some (Raise Exn_OverflowError, w)) /\
  (forall fuel min o w',
      GSSError__init__ fuel c min w = Some (o, w') ->
      o = Raise Exn_OverflowError /\ w' = w) /\
  (forall min, GSSError__init__ 4 c min w = Some (Raise Exn_OverflowError, w)).
Proof.
  intros Hc.
  assert (Hstep : forall fuel m,
    decode_step (S fuel) c m [] 0 w = Some (Raise Exn_OverflowError, w)).
  { intros fuel m. unfold decode_step, try_except_GSSError, bind.
    rewrite display_status_S, Hc. reflexivity. }
  assert (Hgas : forall fuel m o w',
    get_all_statuses fuel c m w = Some (o, w') ->
    o = Raise Exn_OverflowError /\ w' = w).
  { intros fuel m o w' Hrun.
    destruct fuel as [|[|fuel]]; try discriminate.
    rewrite get_all_statuses_S in Hrun. unfold bind in Hrun.
    rewrite Hstep in Hrun. now inversion Hrun. }
  assert (Hgas2 : forall m,
    get_all_statuses 2 c m w = Some (Raise Exn_OverflowError, w)).
  { intros m. rewrite get_all_statuses_S. unfold bind. now rewrite Hstep. }
  split; [exact Hgas|]. split; [exact Hgas2|]. split.
  - intros fuel min o w' Hrun.
    destruct fuel as [|[|fuel]]; try discriminate.
    rewrite GSSError__init___S in Hrun.
    apply bind_Some in Hrun as (o1 & w1 & Hgen & Hk).
    rewrite gen_message_S in Hgen.
    apply bind_Some in Hgen as (o2 & w2 & Hrun & Hk2).
    apply Hgas in Hrun as [-> ->].
    destruct Hk2 as [-> ->]. destruct Hk as [-> ->]. now split.
  - intros min. rewrite GSSError__init___S. unfold bind at 1.
    rewrite gen_message_S. unfold bind at 1. now rewrite Hgas2.
Qed.

Lemma out_of_range_code_witness :
  get_all_statuses 2 (-1) true (world0 demo_provider tt)
  = Some (Raise Exn_OverflowError, world0 demo_provider tt).
Proof.
  exact (proj1 (proj2 (out_of_range_code_raises_OverflowError
                         (P := demo_provider) (-1)
                         (world0 demo_provider tt) eq_refl)) true).
Defined.

(** ** [display_name] with a reported type *)

(** X17. With [name_type] true and a provider that succeeds and reports a
    type, [display_name] returns the provider's text together with an
    [OID] holding a copy of the reported descriptor, and releases the text
    buffer once; no handle changes. *)
Theorem display_name_returns_reported_type
    {P : Provider} `{PyRuntime} fuel h (w : World P) d :
  let rp := gss_display_name P (raw_name w h) true (prov w) in
  u32 (dn_maj_stat (fst rp)) = GSS_S_COMPLETE ->
  dn_output_name_type (fst rp) = Some d ->
  display_name fuel h true w =
  Some (Return (mkDisplayNameResult (dn_output_buffer (fst rp))
                  (Some (mkOID d))),
        mkWorld (objs w)
          (gss_release_buffer P (dn_output_buffer (fst rp)) (snd rp))
          (trace w ++ [Call_display_name (raw_name w h) true;
                       Call_release_buffer (dn_output_buffer (fst rp))])).
Proof.
  intros rp Hmaj Hty. unfold display_name, call_display_name. fold rp.
  destruct rp as [r p]. simpl in *. apply Z.eqb_eq in Hmaj.
  rewrite Hmaj, Hty. unfold ret, call_release_buffer, log. simpl.
  now rewrite <- app_assoc.
Qed.

Lemma display_name_returns_reported_type_witness :
  display_name 0 0%nat true
    (mkWorld (P := demo_provider) {[ 0%nat := 43 ]} tt []) =
  Some (Return (mkDisplayNameResult (encode_utf8 "alice@EXAMPLE.COM")
                  (Some (mkOID (encode_utf8 "oid")))),
        mkWorld (P := demo_provider) {[ 0%nat := 43 ]} tt
          [Call_display_name 43 true;
           Call_release_buffer (encode_utf8 "alice@EXAMPLE.COM")]).
Proof.
  exact (display_name_returns_reported_type (P := demo_provider) 0 0%nat
           (mkWorld (P := demo_provider) {[ 0%nat := 43 ]} tt [])
           (encode_utf8 "oid") eq_refl eq_refl).
Defined.

(** ** Failures whose codes are decoded without another failure *)

Section Plain.
Context {P : Provider} `{PyRuntime}.

Lemma provider_chain_done_length n : forall c t x (p : PState P) res l p',
  provider_chain n c t x p res = Chain_done l p' ->
  exists more, l = res ++ more /\ more <> [] /\ (length more <= n)%nat.
Proof.
  induction n as [|n IH]; intros c t x p res l p' Hchain; [discriminate|].
  simpl in Hchain.
  destruct (gss_display_status P c t GSS_C_NO_OID x p) as [r p1].
  destruct (u32 (ds_maj_stat r) =? GSS_S_COMPLETE); [|discriminate].
  destruct (u32 (ds_message_context r) =? 0).
  - inversion Hchain; subst. exists [ds_status_string r].
    split; [reflexivity|]. split; [discriminate|]. simpl. lia.
  - apply IH in Hchain as (more & -> & _ & Hlen).
    exists (ds_status_string r :: more). split; [now rewrite <- app_assoc|].
    split; [discriminate|]. simpl. lia.
Qed.


(** When both chains end without a failing query the constructor returns
    the exception object, and its message is made of their messages. *)
Lemma GSSError__init___plain n maj min (w : World P) majs mins p2 :
  is_unsigned_int maj = true -> is_unsigned_int min = true ->
  report_chain n maj min (prov w) = Some (majs, mins, p2) ->
  forall fuel, (n + 2 < fuel)%nat ->
    exists w',
      GSSError__init__ fuel maj min w =
      Some (Return (mkGSSError maj min (format_message maj majs min mins)),
            w') /\
      prov w' = p2 /\ decodes w w'.
Proof.
  intros Hmaj Hmin Hrep fuel Hfuel. unfold report_chain in Hrep.
  destruct (provider_chain n maj GSS_C_GSS_CODE 0 (prov w) [])
    as [majs' p1| |] eqn:Hc1; try discriminate.
  destruct (provider_chain n min GSS_C_MECH_CODE 0 p1 [])
    as [mins' p2'| |] eqn:Hc2; try discriminate.
  inversion Hrep; subst. clear Hrep.
  destruct fuel as [|[|fuel]]; try lia.
  destruct (while_cont_chain_done n fuel maj true [] 0 w majs p1)
    as (w1 & Hrun1 & Hp1 & Hd1); [now rewrite Hmaj|lia|exact Hc1|].
  rewrite <- Hp1 in Hc2.
  destruct (while_cont_chain_done n fuel min false [] 0 w1 mins p2)
    as (w2 & Hrun2 & Hp2 & Hd2); [now rewrite Hmin|lia|exact Hc2|].
  exists w2. split; [|split; [exact Hp2|eapply decodes_trans; eassumption]].
  rewrite GSSError__init___S. unfold bind at 1.
  rewrite gen_message_S. unfold bind at 1.
  rewrite get_all_statuses_is_loop, Hrun1. unfold bind at 1.
  rewrite get_all_statuses_is_loop, Hrun2. reflexivity.
Qed.

Lemma raise_GSSError_plain {A} n maj min (w : World P) majs mins p2 :
  is_unsigned_int maj = true -> is_unsigned_int min = true ->
  report_chain n maj min (prov w) = Some (majs, mins, p2) ->
  forall fuel, (n + 2 < fuel)%nat ->
    exists w',
      raise_GSSError (A := A) fuel maj min w =
      Some (Raise (Exn_GSSError
                     (mkGSSError maj min (format_message maj majs min mins))),
            w') /\
      prov w' = p2 /\ decodes w w'.
Proof.
  intros Hmaj Hmin Hrep fuel Hfuel.
  destruct (GSSError__init___plain n maj min w majs mins p2 Hmaj Hmin Hrep
              fuel Hfuel) as (w' & Hrun & Hp & Hd).
  exists w'. split; [|split; assumption].
  unfold raise_GSSError, bind. now rewrite Hrun.
Qed.




End Plain.

(** When both codes are decoded without a failing query, the message of
    the exception holds [Major (M)], [Minor (N)] and the rendering of the
    first message the provider gave for each code. *)
Lemma GSSError_message_when_decoded
    {P : Provider} `{PyRuntime} n M N (w : World P) majs mins p2 :
  is_unsigned_int M = true -> is_unsigned_int N = true ->
  report_chain n M N (prov w) = Some (majs, mins, p2) ->
  forall fuel, (n + 2 < fuel)%nat ->
    exists e w' m1 m2,
      GSSError__init__ fuel M N w = Some (Return e, w') /\
      message e = format_message M majs N mins /\
      head majs = Some m1 /\ head mins = Some m2 /\
      contains ("Major (" ++ py_str_int M ++ ")") (message e) /\
      contains ("Minor (" ++ py_str_int N ++ ")") (message e) /\
      contains (bytes_repr m1) (message e) /\
      contains (bytes_repr m2) (message e).
Proof.
  intros HM HN Hrep fuel Hfuel.
  destruct (GSSError__init___plain n M N w majs mins p2 HM HN Hrep fuel Hfuel)
    as (w' & Hrun & _).
  unfold report_chain in Hrep.
  destruct (provider_chain n M GSS_C_GSS_CODE 0 (prov w) [])
    as [majs' p1| |] eqn:Hc1; try discriminate.
  destruct (provider_chain n N GSS_C_MECH_CODE 0 p1 [])
    as [mins' p2'| |] eqn:Hc2; try discriminate.
  inversion Hrep; subst.
  apply provider_chain_done_length in Hc1 as (more1 & -> & Hne1 & _).
  apply provider_chain_done_length in Hc2 as (more2 & -> & Hne2 & _).
  destruct more1 as [|m1 more1]; [contradiction|].
  destruct more2 as [|m2 more2]; [contradiction|].
  eexists _, w', m1, m2. split; [exact Hrun|]. simpl.
  split; [reflexivity|]. split; [reflexivity|]. split; [reflexivity|].
  split; [apply format_message_major|].
  split; [apply format_message_minor|].
  split; [apply format_message_first_major|apply format_message_first_minor].
Qed.

(** ** A release that fails *)



(** ** When the loop ends *)



(** ** No report when every query fails *)

(** C6 on the code. With a provider whose [gss_display_status] fails on
    every call, [GSSError(13, 0)] is never built: decoding 13 fails, the
    exception for that failure has to be built first, and so on. No fuel
    gives an exception object, so there is no message to hold [Major (13)],
    [Minor (0)] or a placeholder. *)
Theorem GSSError_13_0_never_built_when_all_queries_fail :
  forall fuel,
    GSSError__init__ fuel 13 0 (world0 failing_provider tt) = None.
Proof.
  intros fuel. now apply failing_provider_diverges.
Qed.

(** C7 on the code. With the same provider the constructor's run of the
    decoder for the major code hands nothing back, for any fuel, and so
    [gen_message] never comes to the run for the minor code: it hands
    nothing back either, from any world. *)
Theorem gen_message_never_reaches_minor_when_all_queries_fail :
  forall fuel (w : World failing_provider),
    get_all_statuses fuel 13 true w = None /\
    gen_message (S fuel) 13 0 w = None.
Proof.
  intros fuel w.
  assert (Hmaj : get_all_statuses fuel 13 true w = None)
    by now apply failing_provider_diverges.
  split; [exact Hmaj|].
  rewrite gen_message_S. unfold bind at 1. now rewrite Hmaj.
Qed.

(** ** Provider failures, reported *)

Section New_names_failure.
Context {X : NameProvider} `{PyRuntime}.

Lemma return_new_name_failure_plain n r (w : World X) majs mins p2 :
  u32 (nr_maj_stat r) <> GSS_S_COMPLETE ->
  report_chain n (u32 (nr_maj_stat r)) (u32 (nr_min_stat r)) (prov w)
  = Some (majs, mins, p2) ->
  forall fuel, (n + 2 < fuel)%nat ->
    exists w',
      return_new_name fuel r w =
      Some (Raise (Exn_GSSError
                     (mkGSSError (u32 (nr_maj_stat r)) (u32 (nr_min_stat r))
                        (format_message (u32 (nr_maj_stat r)) majs
                           (u32 (nr_min_stat r)) mins))),
            w') /\
      objs w' = <[fresh (dom (objs w)) := GSS_C_NO_NAME]> (objs w) /\
      count_release (trace w') = count_release (trace w) /\
      prov w' = p2.
Proof.
  intros Hmaj Hrep fuel Hfuel.
  destruct (Name_new_default w) as [Hnew _].
  set (w1 := mkWorld (P := X)
               (<[fresh (dom (objs w)) := GSS_C_NO_NAME]> (objs w))
               (prov w) (trace w)) in *.
  destruct (raise_GSSError_plain (A := nat) n _ _ w1 majs mins p2
              (u32_unsigned _) (u32_unsigned _) Hrep fuel Hfuel)
    as (w' & Hrun & Hp & Hd).
  exists w'. split; [|split; [|split]].
  - unfold return_new_name. rewrite Hnew.
    apply Z.eqb_neq in Hmaj. now rewrite Hmaj.
  - now destruct Hd as [-> _].
  - now rewrite (decodes_count_release _ _ Hd).
  - exact Hp.
Qed.

End New_names_failure.

(** X2. When the provider refuses the string and decodes the two codes of
    its refusal without a failing query, [import_name] returns no handle:
    it raises the [GSSError] built from the provider's codes and their
    messages. The objects of before are as they were, the object allocated
    for the result is in the sentinel state, and no release call was
    made. *)
Theorem import_name_failure_raises
    {X : NameProvider} `{PyRuntime} name name_type (w : World X)
    n majs mins p2 :
  let nt := match name_type with
            | None => GSS_C_NO_OID
            | Some o => Some (raw_oid o)
            end in
  let rp := gss_import_name X name nt (prov w) in
  let maj := u32 (nr_maj_stat (fst rp)) in
  let min := u32 (nr_min_stat (fst rp)) in
  maj <> GSS_S_COMPLETE ->
  report_chain n maj min (snd rp) = Some (majs, mins, p2) ->
  forall fuel, (n + 2 < fuel)%nat ->
    exists w',
      import_name fuel name name_type w =
      Some (Raise (Exn_GSSError
                     (mkGSSError maj min (format_message maj majs min mins))),
            w') /\
      (forall k r, objs w !! k = Some r -> objs w' !! k = Some r) /\
      (forall k r, objs w' !! k = Some r ->
                   objs w !! k = Some r \/ r = GSS_C_NO_NAME) /\
      count_release (trace w') = count_release (trace w).
Proof.
  intros nt rp maj min Hmaj Hrep fuel Hfuel.
  unfold import_name. fold nt. fold rp. subst maj min.
  destruct rp as [r p]. cbn [fst snd] in *.
  destruct (return_new_name_failure_plain n r (set_prov p w) majs mins p2
              Hmaj Hrep fuel Hfuel) as (w' & Hrun & Ho & Hc & _).
  exists w'. split; [exact Hrun|].
  destruct (failed_new_name_holds_nothing (set_prov p w) w' Ho) as [H1 H2].
  split; [exact H1|]. split; [exact H2 | exact Hc].
Qed.

Lemma import_name_failure_witness :
  exists w',
    import_name 4 [] None (world0 demo_name_provider tt) =
    Some (Raise (Exn_GSSError
            (mkGSSError GSS_S_BAD_NAME 0
               "Major (131072): [b'Unknown error'], Minor (0): [b'Unknown error']")),
          w') /\
    count_release (trace w') = 0%nat.
Proof.
  destruct (import_name_failure_raises (X := demo_name_provider) [] None
              (world0 demo_name_provider tt) 1
              [encode_utf8 "Unknown error"] [encode_utf8 "Unknown error"] tt
              ltac:(vm_compute; discriminate) eq_refl 4%nat (le_n 4))
    as (w' & Hrun & _ & _ & Hc).
  exists w'. split; [exact Hrun | exact Hc].
Defined.

(** X4. [canonicalize_name] hands the provider the name of its argument
    and the descriptor of [mech]. On success it returns an object that was
    not in the store before, holding the mechanism name the provider
    produced, and the argument keeps its own name. When the provider fails
    and decodes the two codes of the failure without a failing query, it
    raises the [GSSError] built from these codes, and the objects of before
    are as they were. *)
Theorem canonicalize_name_gives_distinct_handle
    {X : NameProvider} `{PyRuntime} h r mech (w : World X) :
  let rp := gss_canonicalize_name X r (Some (raw_oid mech)) (prov w) in
  let maj := u32 (nr_maj_stat (fst rp)) in
  let min := u32 (nr_min_stat (fst rp)) in
  objs w !! h = Some r ->
  (maj = GSS_S_COMPLETE ->
   forall fuel,
   exists on,
     objs w !! on = None /\ on <> h /\
     canonicalize_name fuel h mech w =
     Some (Return on,
           mkWorld (<[on := nr_output_name (fst rp)]> (objs w)) (snd rp)
                   (trace w))) /\
  (maj <> GSS_S_COMPLETE ->
   forall n majs mins p2,
     report_chain n maj min (snd rp) = Some (majs, mins, p2) ->
     forall fuel, (n + 2 < fuel)%nat ->
       exists w',
         canonicalize_name fuel h mech w =
         Some (Raise (Exn_GSSError
                        (mkGSSError maj min
                           (format_message maj majs min mins))),
               w') /\
         (forall k r', objs w !! k = Some r' -> objs w' !! k = Some r')).
Proof.
  intros rp maj min Hh. pose proof (raw_name_lookup _ _ _ Hh) as Hraw. split.
  - intros Hmaj fuel. exists (fresh (dom (objs w))).
    assert (Hfresh : objs w !! fresh (dom (objs w)) = None)
      by apply not_elem_of_dom, is_fresh.
    split; [assumption|]. split; [congruence|].
    unfold canonicalize_name. rewrite Hraw. fold rp. subst maj min.
    destruct rp as [d p]. simpl in *.
    now destruct (return_new_name_success fuel d (set_prov p w) Hmaj).
  - intros Hmaj n majs mins p2 Hrep fuel Hfuel.
    unfold canonicalize_name. rewrite Hraw. fold rp. subst maj min.
    destruct rp as [d p]. cbn [fst snd] in *.
    destruct (return_new_name_failure_plain n d (set_prov p w) majs mins p2
                Hmaj Hrep fuel Hfuel) as (w' & Hrun & Ho & _).
    exists w'. split; [exact Hrun|].
    now destruct (failed_new_name_holds_nothing (set_prov p w) w' Ho).
Qed.

Lemma canonicalize_name_witness :
  exists on,
    objs (world0 demo_name_provider tt) !! on = None /\ on <> 0%nat /\
    canonicalize_name 0 0%nat (mkOID (encode_utf8 "krb5"))
      (world0 demo_name_provider tt) =
    Some (Return on,
          mkWorld (P := demo_name_provider)
            (<[on := 43]> {[ 0%nat := 42 ]}) tt []).
Proof.
  exact (proj1 (canonicalize_name_gives_distinct_handle
                  (X := demo_name_provider) 0%nat 42
                  (mkOID (encode_utf8 "krb5"))
                  (world0 demo_name_provider tt) eq_refl) eq_refl 0%nat).
Defined.

(** X5. [export_name] on success returns the bytes the provider exported
    and releases that buffer, once, as its only traced call. When the
    provider fails and decodes the two codes of the failure without a
    failing query, it raises the [GSSError] built from these codes. In both
    cases no [Name] object changes. *)
Theorem export_name_returns_and_releases_buffer
    {X : NameProvider} `{PyRuntime} h (w : World X) :
  let rp := gss_export_name X (raw_name w h) (prov w) in
  let maj := u32 (br_maj_stat (fst rp)) in
  let min := u32 (br_min_stat (fst rp)) in
  (maj = GSS_S_COMPLETE ->
   forall fuel,
     export_name fuel h w =
     Some (Return (br_buffer (fst rp)),
           mkWorld (objs w)
             (gss_release_buffer X (br_buffer (fst rp)) (snd rp))
             (trace w ++ [Call_release_buffer (br_buffer (fst rp))]))) /\
  (maj <> GSS_S_COMPLETE ->
   forall n majs mins p2,
     report_chain n maj min (snd rp) = Some (majs, mins, p2) ->
     forall fuel, (n + 2 < fuel)%nat ->
       exists w',
         export_name fuel h w =
         Some (Raise (Exn_GSSError
                        (mkGSSError maj min
                           (format_message maj majs min mins))),
               w') /\
         objs w' = objs w).
Proof.
  intros rp maj min. split.
  - intros Hmaj fuel. unfold export_name. fold rp. subst maj min.
    destruct rp as [r p]. simpl in *. apply Z.eqb_eq in Hmaj. now rewrite Hmaj.
  - intros Hmaj n majs mins p2 Hrep fuel Hfuel.
    unfold export_name. fold rp. subst maj min.
    destruct rp as [r p]. cbn [fst snd] in *.
    destruct (raise_GSSError_plain (A := bytes) n _ _ (set_prov p w)
                majs mins p2 (u32_unsigned _) (u32_unsigned _) Hrep fuel Hfuel)
      as (w' & Hrun & _ & [Ho _]).
    exists w'. apply Z.eqb_neq in Hmaj. rewrite Hmaj. split; assumption.
Qed.

Lemma export_name_witness :
  exists w',
    export_name 4 0%nat (world0 demo_name_provider tt) =
    Some (Raise (Exn_GSSError
            (mkGSSError GSS_S_NAME_NOT_MN 0
               "Major (1179648): [b'Unknown error'], Minor (0): [b'Unknown error']")),
          w') /\
    objs w' = objs (world0 demo_name_provider tt).
Proof.
  exact (proj2 (export_name_returns_and_releases_buffer
                  (X := demo_name_provider) 0%nat
                  (world0 demo_name_provider tt))
           ltac:(vm_compute; discriminate) 1%nat
           [encode_utf8 "Unknown error"] [encode_utf8 "Unknown error"] tt
           eq_refl 4%nat (le_n 4)).
Defined.



(** X16. When the provider's call fails and the provider decodes the two
    codes of the failure without a failing query, [compare_name] (both
    names present), [display_name] and [duplicate_name] return no value:
    each raises the [GSSError] built from the major and minor codes of the
    provider. *)
Theorem provider_failure_raises_GSSError
    {X : NameProvider} `{PyRuntime} (w : World X) n majs mins p2 fuel :
  (n + 2 < fuel)%nat ->
  (forall h1 h2,
      let rp := gss_compare_name X (raw_name w h1) (raw_name w h2) (prov w) in
      let maj := u32 (cn_maj_stat (fst rp)) in
      let min := u32 (cn_min_stat (fst rp)) in
      maj <> GSS_S_COMPLETE ->
      report_chain n maj min (snd rp) = Some (majs, mins, p2) ->
      exists w',
        compare_name fuel (Some h1) (Some h2) w =
        Some (Raise (Exn_GSSError
                       (mkGSSError maj min
                          (format_message maj majs min mins))), w')) /\
  (forall h name_type,
      let rp := gss_display_name X (raw_name w h) name_type (prov w) in
      let maj := u32 (dn_maj_stat (fst rp)) in
      let min := u32 (dn_min_stat (fst rp)) in
      maj <> GSS_S_COMPLETE ->
      report_chain n maj min (snd rp) = Some (majs, mins, p2) ->
      exists w',
        display_name fuel h name_type w =
        Some (Raise (Exn_GSSError
                       (mkGSSError maj min
                          (format_message maj majs min mins))), w')) /\
  (forall h,
      let rp := gss_duplicate_name X (raw_name w h) (prov w) in
      let maj := u32 (nr_maj_stat (fst rp)) in
      let min := u32 (nr_min_stat (fst rp)) in
      maj <> GSS_S_COMPLETE ->
      report_chain n maj min (snd rp) = Some (majs, mins, p2) ->
      exists w',
        duplicate_name fuel h w =
        Some (Raise (Exn_GSSError
                       (mkGSSError maj min
                          (format_message maj majs min mins))), w')).
Proof.
  intros Hfuel. split; [|split].
  - intros h1 h2 rp maj min Hmaj Hrep.
    unfold compare_name, call_compare_name. fold rp. subst maj min.
    destruct rp as [r p]. cbn [fst snd] in *.
    destruct (raise_GSSError_plain (A := bool) n _ _
                (log (Call_compare_name (raw_name w h1) (raw_name w h2)) p w)
                majs mins p2 (u32_unsigned _) (u32_unsigned _) Hrep fuel Hfuel)
      as (w' & Hrun & _).
    exists w'. apply Z.eqb_neq in Hmaj. now rewrite Hmaj.
  - intros h name_type rp maj min Hmaj Hrep.
    unfold display_name, call_display_name. fold rp. subst maj min.
    destruct rp as [r p]. cbn [fst snd] in *.
    destruct (raise_GSSError_plain (A := DisplayNameResult) n _ _
                (log (Call_display_name (raw_name w h) name_type) p w)
                majs mins p2 (u32_unsigned _) (u32_unsigned _) Hrep fuel Hfuel)
      as (w' & Hrun & _).
    exists w'. apply Z.eqb_neq in Hmaj. now rewrite Hmaj.
  - intros h rp maj min Hmaj Hrep.
    unfold duplicate_name. fold rp. subst maj min.
    destruct rp as [r p]. cbn [fst snd] in *.
    destruct (return_new_name_failure_plain n r (set_prov p w) majs mins p2
                Hmaj Hrep fuel Hfuel) as (w' & Hrun & _).
    now exists w'.
Qed.

Lemma provider_failure_raises_GSSError_witness :
  exists w',
    duplicate_name 4 0%nat
      (mkWorld (P := demo_name_provider) {[ 0%nat := GSS_C_NO_NAME ]} tt [])
    = Some (Raise (Exn_GSSError
              (mkGSSError GSS_S_BAD_NAME 0
                 "Major (131072): [b'Unknown error'], Minor (0): [b'Unknown error']")),
            w').
Proof.
  destruct (proj2 (proj2 (provider_failure_raises_GSSError
                            (X := demo_name_provider)
                            (mkWorld (P := demo_name_provider)
                               {[ 0%nat := GSS_C_NO_NAME ]} tt [])
                            1 [encode_utf8 "Unknown error"]
                            [encode_utf8 "Unknown error"] tt 4 (le_n 4)))
              0%nat) as (w' & Hrun).
  - vm_compute. discriminate.
  - reflexivity.
  - exists w'. exact Hrun.
Defined.
